(** * Genry: the template discovery / selection / invocation pipeline

    A shallow embedding of [packages/genry/src/bin.ts].  The asynchronous
    code is written in a small monad [Async] that threads the observable
    world (the process working directory and the chronological trace of
    the effects performed) and carries the settled state of the promise
    an [async] function returns.  The third-party collaborators ([glob],
    the module loader behind [import()], the [prompts] picker) are
    variables of the section that holds the program. *)

From Stdlib Require Import String Ascii List Bool Arith Lia ZArith.
From Stdlib Require Import DecimalString.
Import ListNotations.
Open Scope string_scope.
Open Scope list_scope.

(** ** JavaScript control: completions and promises *)

(** The value carried by a [throw] or by a rejection. *)
Definition error := string.

(** Outcome of evaluating an expression synchronously. *)
Inductive completion (A : Type) : Type :=
| Normal (a : A)
| Throw (e : error).
Arguments Normal {A} a.
Arguments Throw {A} e.

(** Settled state of a promise. *)
Inductive promise (A : Type) : Type :=
| Fulfilled (a : A)
| Rejected (e : error).
Arguments Fulfilled {A} a.
Arguments Rejected {A} e.

(** [p.then(f)] for a callback that does not throw. *)
Definition promise_then {A B : Type} (p : promise A) (f : A -> B) : promise B :=
  match p with
  | Fulfilled a => Fulfilled (f a)
  | Rejected e => Rejected e
  end.

(** [Promise.all(ps)]: fulfilled with every value, in the order of [ps],
    when every promise is fulfilled, and rejected as soon as one of them
    is rejected.  The module loader settles the imports in the order they
    were issued, so the reason kept is that of the first rejected one. *)
Fixpoint promise_all {A : Type} (ps : list (promise A)) : promise (list A) :=
  match ps with
  | [] => Fulfilled []
  | Rejected e :: _ => Rejected e
  | Fulfilled a :: ps' =>
      match promise_all ps' with
      | Fulfilled l => Fulfilled (a :: l)
      | Rejected e => Rejected e
      end
  end.

Definition is_fulfilled {A : Type} (p : promise A) : bool :=
  match p with Fulfilled _ => true | Rejected _ => false end.

(** ** Data model *)

(** The context object built in [start] and handed to [generate]. *)
Record RunContext : Type := {
  ctx_path : string;
  ctx_packagePath : string;
  ctx_ipcServer : option string;
  ctx_terminalId : option string
}.

(** [Genry["config"]]; ts-node's [RegisterOptions] are opaque here. *)
Record Config : Type := {
  include : option string;
  exclude : option string;
  registerOptions : option string
}.

(** A template: [generate] either throws synchronously or returns a
    promise that is fulfilled or rejected. *)
Record Template : Type := {
  name : string;
  description : option string;
  generate : RunContext -> Config -> completion (promise unit)
}.

(** What a template module may have as its default export, at the type
    [Template | Template[]] of the source widened by the two empty
    values. *)
Inductive export : Type :=
| EUndefined
| ENull
| ETemplate (t : Template)
| EArray (ts : list Template).

(** The namespace object of an imported module. *)
Record Module : Type := { default : export }.

(** Modelled from the spec: the class [VscodeExtension] of
    [./vscode-extension], whose source is not part of what is verified
    here.  The specification gives it the read-only fields [serverId]
    and [terminalId], forwarded into the context of [generate], and
    [emit]; an instance is taken to hold the two ids it was built
    from. *)
Record VscodeExtension : Type := {
  serverId : option string;
  terminalId : option string
}.

(** The lifecycle notifications of [vscodeExtension.emit]. *)
Inductive bridge_event : Type := EvFound | EvNotFound | EvEnd.

(** The options object given to [glob]. *)
Record GlobOptions : Type := {
  dot : bool;
  nodir : bool;
  glob_cwd : string;
  ignore : option string
}.

(** The fields of a [Genry] instance (the spinner shows up as effects). *)
Record Genry : Type := {
  vscodeExtension : VscodeExtension;
  packagePath : string;
  config : Config;
  path : string
}.

(** The values [getInitConfig] resolves to. *)
Record InitConfig : Type := {
  args_path : string;
  args_ipcServer : option string;
  args_terminalId : option string;
  init_packagePath : string;
  init_config : Config
}.

(** [new Genry({ vscodeExtension, packagePath, config, path })], with
    [new VscodeExtension({ serverId: args.ipcServer, terminalId:
    args.terminalId })] as the specification describes the class (see
    [VscodeExtension]). *)
Definition new_Genry (init : InitConfig) : Genry :=
  {| vscodeExtension := {| serverId := args_ipcServer init;
                           terminalId := args_terminalId init |};
     packagePath := init_packagePath init;
     config := init_config init;
     path := args_path init |}.

(** ** The observable world *)

(** Every call the program makes on a collaborator, as it is made. *)
Inductive effect : Type :=
| SpinnerStart (text : string)
| SpinnerWarn (text : string)
| SpinnerText (text : string)
| SpinnerSucceed (text : string)
| Glob (pattern : string) (opts : GlobOptions)
| Emit (ev : bridge_event)
| Chdir (dir : string)
| Import (file : string)
| ConsoleError (e : error)
| Prompts (choices : list Template)
| Generate (t : Template) (ctx : RunContext) (cfg : Config).

Record World : Type := {
  cwd : string;
  trace : list effect
}.

(** ** The [Async] monad *)

Definition Async (A : Type) : Type := World -> promise A * World.

Definition ret {A : Type} (a : A) : Async A := fun w => (Fulfilled a, w).

(** [throw e] inside an [async] function rejects its promise. *)
Definition throw {A : Type} (e : error) : Async A := fun w => (Rejected e, w).

(** [const x = await m; k x]: a rejection of [m] skips [k]. *)
Definition bind {A B : Type} (m : Async A) (k : A -> Async B) : Async B :=
  fun w =>
    match m w with
    | (Fulfilled a, w') => k a w'
    | (Rejected e, w') => (Rejected e, w')
    end.

Notation "x <- m ;; k" := (bind m (fun x => k))
  (at level 61, m at next level, right associativity).
Notation "m ;;; k" := (bind m (fun _ => k))
  (at level 61, right associativity).

(** [await p] for a promise that is already settled. *)
Definition await {A : Type} (p : promise A) : Async A := fun w => (p, w).

(** The world after some more effects, the directory unchanged. *)
Definition push (w : World) (evs : list effect) : World :=
  {| cwd := cwd w; trace := trace w ++ evs |}.

Definition perform (ev : effect) : Async unit :=
  fun w => (Fulfilled tt, push w [ev]).

(** [process.cwd()] *)
Definition process_cwd : Async string := fun w => (Fulfilled (cwd w), w).

(** [process.chdir(dir)] *)
Definition process_chdir (dir : string) : Async unit :=
  fun w => (Fulfilled tt, {| cwd := dir; trace := trace w ++ [Chdir dir] |}).

(** ** Helpers of the loader *)

Definition MODULE_NAME : string := "genry".
Definition TEMPLATE_TYPE : string := "genry".

(** [.filter((v) => v)]: the truthiness of a default export. *)
Definition truthy (v : export) : bool :=
  match v with
  | EUndefined | ENull => false
  | ETemplate _ | EArray _ => true
  end.

(** [Array.isArray(t) ? t : [t]]: the elements of an array, or the
    one-element array of the value itself.  An element is a template,
    or nothing when the value is [null] or [undefined]. *)
Definition as_array (v : export) : list (option Template) :=
  match v with
  | EArray ts => map Some ts
  | ETemplate t => [Some t]
  | EUndefined | ENull => [None]
  end.

(** [.filter((v) => v).reduce((acc, t) => acc.concat(...), [])]: the
    array the loader builds, element by element. *)
Definition concat_exports (vs : list export) : list (option Template) :=
  fold_left (fun acc t => acc ++ as_array t) (filter truthy vs) [].

(** An array at the type [Template[]] the loader declares for it: its
    templates.  (An empty element has no place at that type;
    [concat_exports_templates] shows the array built has none.) *)
Definition templates_of (elements : list (option Template)) : list Template :=
  flat_map (fun e => match e with Some t => [t] | None => [] end) elements.

(** [.filter(...).reduce<Template[]>(...)] *)
Definition flatten_exports (vs : list export) : list Template :=
  templates_of (concat_exports vs).

(** What one default export adds to the array: what the filter lets
    through of it, as the reduce step spreads it. *)
Definition contribution (v : export) : list Template :=
  templates_of (if truthy v then as_array v else []).

(** How many entries the specification gives a default export: the
    length of an array, one for a single template, none for [null] and
    [undefined]. *)
Definition entries (v : export) : nat :=
  match v with
  | EArray ts => length ts
  | ETemplate _ => 1
  | ENull | EUndefined => 0
  end.

(** The number as the template literal prints it. *)
Definition string_of_nat (n : nat) : string :=
  NilEmpty.string_of_uint (Nat.to_uint n).

(** ** What a run leaves in the trace *)

Definition bridge_event_eqb (a b : bridge_event) : bool :=
  match a, b with
  | EvFound, EvFound | EvNotFound, EvNotFound | EvEnd, EvEnd => true
  | _, _ => false
  end.

(** How many times [emit(ev)] was called. *)
Definition emitted (ev : bridge_event) (tr : list effect) : nat :=
  length (filter (fun e => match e with
                           | Emit ev' => bridge_event_eqb ev ev'
                           | _ => false
                           end) tr).

(** The files given to [import()], in order. *)
Definition imports (tr : list effect) : list string :=
  flat_map (fun e => match e with Import f => [f] | _ => [] end) tr.

(** The templates whose [generate] was called, in order. *)
Definition generated (tr : list effect) : list Template :=
  flat_map (fun e => match e with Generate t _ _ => [t] | _ => [] end) tr.

(** The choice lists the picker was shown. *)
Definition prompted (tr : list effect) : list (list Template) :=
  flat_map (fun e => match e with Prompts c => [c] | _ => [] end) tr.

(** The directories given to [process.chdir], in order. *)
Definition chdirs (tr : list effect) : list string :=
  flat_map (fun e => match e with Chdir d => [d] | _ => [] end) tr.

(** What [console.error] printed. *)
Definition console_errors (tr : list effect) : list error :=
  flat_map (fun e => match e with ConsoleError x => [x] | _ => [] end) tr.

(** The world a process starts in. *)
Definition boot (dir : string) : World := {| cwd := dir; trace := [] |}.

(** The status a process ends with once the promise of the top-level
    [async] function has settled.  That promise has no handler: under
    Node's default policy for unhandled rejections a rejection ends the
    process with status 1, and a fulfilled run ends with status 0 when the
    event loop drains. *)
Definition process_exit_status (p : promise unit) : Z :=
  match p with
  | Fulfilled _ => 0%Z
  | Rejected _ => 1%Z
  end.

(** ** File names and the last segment of a glob pattern *)

Definition is_slash (c : ascii) : bool := Ascii.eqb c "/".

(** The part of a path after its last separator. *)
Fixpoint basename_from (acc s : string) : string :=
  match s with
  | EmptyString => acc
  | String c rest =>
      if is_slash c then basename_from "" rest
      else basename_from (acc ++ String c "") rest
  end.

Definition basename (s : string) : string := basename_from "" s.

(** Whether a text is free of separators. *)
Fixpoint no_slash (s : string) : bool :=
  match s with
  | EmptyString => true
  | String c rest => negb (is_slash c) && no_slash rest
  end.

(** One segment of a glob pattern, in the fragment the loader's pattern
    uses: [*], [?], the group [?(a|b)] and plain characters. *)
Inductive token : Type :=
| TStar
| TAny
| TLit (c : ascii)
| TOpt (alts : list string).

(** Characters that have a meaning of their own in a pattern. *)
Definition is_special (c : ascii) : bool :=
  existsb (Ascii.eqb c)
    ["/"; "{"; "}"; "["; "]"; "("; ")"; "|"; "\"; "!"; "+"; "@"; "*"; "?"]%char.

(** The tokens of a segment; [None] outside the fragment.  The state is
    the alternative being read and the ones already read, inside a group. *)
Fixpoint parse_segment_from (st : option (string * list string)) (s : string)
  : option (list token) :=
  match st, s with
  | None, EmptyString => Some []
  | None, String c rest =>
      if Ascii.eqb c "*" then option_map (cons TStar) (parse_segment_from None rest)
      else if Ascii.eqb c "?" then
        match rest with
        | String "(" rest' => parse_segment_from (Some ("", [])) rest'
        | _ => option_map (cons TAny) (parse_segment_from None rest)
        end
      else if is_special c then None
      else option_map (cons (TLit c)) (parse_segment_from None rest)
  | Some _, EmptyString => None
  | Some (cur, acc), String c rest =>
      if Ascii.eqb c ")" then
        option_map (cons (TOpt (rev (cur :: acc)))) (parse_segment_from None rest)
      else if Ascii.eqb c "|" then parse_segment_from (Some ("", cur :: acc)) rest
      else if is_special c then None
      else parse_segment_from (Some (cur ++ String c "", acc)%string) rest
  end.

Definition parse_segment (s : string) : option (list token) :=
  parse_segment_from None s.

(** [strip_prefix a s]: what follows [a] in [s]. *)
Fixpoint strip_prefix (a s : string) : option string :=
  match a, s with
  | EmptyString, _ => Some s
  | String c a', String d s' => if Ascii.eqb c d then strip_prefix a' s' else None
  | String _ _, EmptyString => None
  end.

(** Whether a file name matches the tokens of a segment. *)
Fixpoint match_tokens (toks : list token) (s : string) : bool :=
  match toks with
  | [] => match s with EmptyString => true | _ => false end
  | TLit c :: toks' =>
      match s with
      | String d s' => Ascii.eqb c d && match_tokens toks' s'
      | EmptyString => false
      end
  | TAny :: toks' =>
      match s with
      | String d s' => negb (is_slash d) && match_tokens toks' s'
      | EmptyString => false
      end
  | TStar :: toks' =>
      (fix star (s : string) : bool :=
         match_tokens toks' s ||
         match s with
         | String d s' => negb (is_slash d) && star s'
         | EmptyString => false
         end) s
  | TOpt alts :: toks' =>
      match_tokens toks' s ||
      existsb (fun a => match strip_prefix a s with
                        | Some s' => match_tokens toks' s'
                        | None => false
                        end) alts
  end.

(** The tokens of the segment [*.genry.?(ts|js)]. *)
Definition template_tokens : list token :=
  [TStar; TLit "."%char; TLit "g"%char; TLit "e"%char; TLit "n"%char;
   TLit "r"%char; TLit "y"%char; TLit "."%char; TOpt ["ts"; "js"]].

(** A template file name: anything, the marker [.genry.], then [ts], [js]
    or nothing. *)
Definition template_basename (b : string) : Prop :=
  exists stem ext,
    b = (stem ++ "." ++ TEMPLATE_TYPE ++ "." ++ ext)%string /\
    In ext [""; "ts"; "js"].

(** What [glob] promises about the last segment of its pattern: when that
    segment lies in the fragment above (so that no brace group reaches
    into it), every path returned has a file name that matches it. *)
Definition glob_matches_last_segment
    (glob : string -> GlobOptions -> list string) : Prop :=
  forall pattern opts toks file,
    parse_segment (basename pattern) = Some toks ->
    In file (glob pattern opts) ->
    match_tokens toks (basename file) = true.

(** ** More observations of a trace *)

(** The calls made on the spinner, in order. *)
Definition spinner_calls (tr : list effect) : list effect :=
  filter (fun e => match e with
                   | SpinnerStart _ | SpinnerWarn _ | SpinnerText _
                   | SpinnerSucceed _ => true
                   | _ => false
                   end) tr.

(** The calls of [generate], each with the arguments it was given. *)
Definition generate_calls (tr : list effect)
  : list (Template * RunContext * Config) :=
  flat_map (fun e => match e with
                     | Generate t ctx cfg => [(t, ctx, cfg)]
                     | _ => []
                     end) tr.

(** The calls of [glob], each with its pattern and options. *)
Definition glob_calls (tr : list effect) : list (string * GlobOptions) :=
  flat_map (fun e => match e with Glob p o => [(p, o)] | _ => [] end) tr.

(** ** Paths, as [path.posix] computes them *)

(** [path.isAbsolute(p)] *)
Definition isAbsolute (p : string) : bool :=
  match p with
  | String c _ => is_slash c
  | EmptyString => false
  end.

(** The pieces of a path between its separators, empty ones included. *)
Fixpoint split_from (acc s : string) : list string :=
  match s with
  | EmptyString => [acc]
  | String c rest =>
      if is_slash c then acc :: split_from "" rest
      else split_from (acc ++ String c "") rest
  end.

Definition split_slash (s : string) : list string := split_from "" s.

Fixpoint join_slash (segs : list string) : string :=
  match segs with
  | [] => ""
  | [seg] => seg
  | seg :: rest => (seg ++ "/" ++ join_slash rest)%string
  end.

Fixpoint ends_with_slash (s : string) : bool :=
  match s with
  | EmptyString => false
  | String c EmptyString => is_slash c
  | String _ rest => ends_with_slash rest
  end.

(** The segment walk of [normalizeString]: empty and [.] segments are
    dropped, [..] removes the segment before it, or stays when there is
    none to remove and the path is relative.  [res] is the result so
    far, last segment first. *)
Fixpoint normalize_segments (allowAboveRoot : bool) (segs res : list string)
  : list string :=
  match segs with
  | [] => rev res
  | seg :: rest =>
      if String.eqb seg "" || String.eqb seg "." then
        normalize_segments allowAboveRoot rest res
      else if String.eqb seg ".." then
        match res with
        | top :: res' =>
            if String.eqb top ".." then
              normalize_segments allowAboveRoot rest
                (if allowAboveRoot then ".." :: res else res)
            else normalize_segments allowAboveRoot rest res'
        | [] =>
            normalize_segments allowAboveRoot rest
              (if allowAboveRoot then [".."] else [])
        end
      else normalize_segments allowAboveRoot rest (seg :: res)
  end.

(** [path.normalize(p)] *)
Definition normalize (p : string) : string :=
  if String.eqb p "" then "."
  else
    let body :=
      join_slash (normalize_segments (negb (isAbsolute p)) (split_slash p) []) in
    if String.eqb body "" then
      if isAbsolute p then "/" else if ends_with_slash p then "./" else "."
    else
      let body' := if ends_with_slash p then (body ++ "/")%string else body in
      if isAbsolute p then ("/" ++ body')%string else body'.

(** [path.join(a, b)]: the non-empty arguments are put together with a
    separator and the result is normalised. *)
Definition join (a b : string) : string :=
  let joined :=
    if String.eqb a "" then b
    else if String.eqb b "" then a
    else (a ++ "/" ++ b)%string in
  if String.eqb joined "" then "." else normalize joined.

(** A segment as [glob] returns them and as a resolved directory has
    them: not empty, not [.] or [..], without a separator. *)
Definition clean_segment (seg : string) : bool :=
  negb (String.eqb seg "" || String.eqb seg "." || String.eqb seg "..")
  && match split_slash seg with [_] => true | _ => false end.

(** Where [dirname] cuts: the text before the last separator that has a
    name after it, going through the characters after the first, last
    one first.  [skipping] holds while only trailing separators have
    been seen. *)
Fixpoint dirname_cut (skipping : bool) (rev_tail : list ascii)
  : option (list ascii) :=
  match rev_tail with
  | [] => None
  | c :: before =>
      if is_slash c then
        if skipping then dirname_cut true before else Some before
      else dirname_cut false before
  end.

(** [path.dirname(p)] *)
Definition dirname (p : string) : string :=
  match p with
  | EmptyString => "."
  | String c tail =>
      match dirname_cut true (rev (list_ascii_of_string tail)) with
      | None => if is_slash c then "/" else "."
      | Some [] =>
          if is_slash c then "//" else String c ""
      | Some before => String c (string_of_list_ascii (rev before))
      end
  end.

(** ** Objects, for the options given to ts-node *)

(** The value of an option: a boolean, a string, a number, or anything
    else, kept as its JSON text. *)
Inductive jsvalue : Type :=
| JBool (b : bool)
| JString (s : string)
| JNumber (n : Z)
| JOther (json : string).

(** An object: its own properties in insertion order. *)
Definition object : Type := list (string * jsvalue).

(** [o[k]], if [o] has the property. *)
Fixpoint obj_get (o : object) (k : string) : option jsvalue :=
  match o with
  | [] => None
  | (k', v) :: rest => if String.eqb k k' then Some v else obj_get rest k
  end.

(** [o[k] = v]: an existing property keeps its place. *)
Fixpoint obj_set (o : object) (k : string) (v : jsvalue) : object :=
  match o with
  | [] => [(k, v)]
  | (k', v') :: rest =>
      if String.eqb k k' then (k', v) :: rest
      else (k', v') :: obj_set rest k v
  end.

(** [{ ...target, ...source }] *)
Definition spread (target source : object) : object :=
  fold_left (fun acc kv => obj_set acc (fst kv) (snd kv)) source target.

(** The part of ts-node's [RegisterOptions] the constructor looks into:
    the compiler options, and every other option. *)
Record RegisterOptions : Type := {
  compilerOptions : option object;
  otherOptions : object
}.

(** The compiler options the constructor writes before the user's. *)
Definition default_compilerOptions : object :=
  [("allowJs", JBool true);
   ("module", JString "CommonJS");
   ("esModuleInterop", JBool true);
   ("allowSyntheticDefaultImports", JBool true)].

(** [x || {}] for an optional object. *)
Definition or_empty (o : option object) : object :=
  match o with Some fields => fields | None => [] end.

(** The object the constructor gives to [register], for the
    [registerOptions] of the configuration, if any. *)
Definition register_options (ro : option RegisterOptions) : RegisterOptions :=
  {| compilerOptions :=
       Some (spread default_compilerOptions
               (or_empty (match ro with
                          | Some r => compilerOptions r
                          | None => None
                          end)));
     otherOptions :=
       match ro with Some r => otherOptions r | None => [] end |}.

(** ** The collaborators of [getInitConfig] *)

(** What yargs parsed: [--path] when given, and the two hidden options. *)
Record Argv : Type := {
  argv_path : option string;
  argv_ipcServer : option string;
  argv_terminalId : option string
}.

(** What a cosmiconfig search finds: the configuration of the file,
    which may be empty, and where the file is. *)
Record CosmiconfigResult : Type := {
  cc_config : option Config;
  cc_filepath : string
}.

(** [p.then(f)] for a callback that may throw. *)
Definition promise_then_try {A B : Type} (p : promise A)
    (f : A -> completion B) : promise B :=
  match p with
  | Fulfilled a =>
      match f a with
      | Normal b => Fulfilled b
      | Throw e => Rejected e
      end
  | Rejected e => Rejected e
  end.

(** [Promise.all([p, q])]; when both are rejected the reason kept here
    is that of the first (which of the two settles first is not
    modelled). *)
Definition promise_all2 {A B : Type} (p : promise A) (q : promise B)
  : promise (A * B) :=
  match p, q with
  | Fulfilled a, Fulfilled b => Fulfilled (a, b)
  | Rejected e, _ => Rejected e
  | Fulfilled _, Rejected e => Rejected e
  end.

(** What [path.dirname] throws when it is given no string. *)
Definition ERR_INVALID_ARG_TYPE : error :=
  "TypeError [ERR_INVALID_ARG_TYPE]: The path argument must be of type string".

(** [(p) => path.dirname(p)] on what pkg-up resolves to: [path.dirname]
    throws on anything but a string. *)
Definition dirname_of (p : option string) : completion string :=
  match p with
  | Some s => Normal (dirname s)
  | None => Throw ERR_INVALID_ARG_TYPE
  end.

(** [config || {}] *)
Definition empty_config : Config :=
  {| include := None; exclude := None; registerOptions := None |}.

(** ** Concrete packages for the examples *)

Module Scenario.

Definition noContext : VscodeExtension :=
  {| serverId := None; terminalId := None |}.

Definition noConfig : Config :=
  {| include := None; exclude := None; registerOptions := None |}.

(** A package rooted at [/proj], run from [/home/user]. *)
Definition init : InitConfig :=
  {| args_path := "/home/user";
     args_ipcServer := None;
     args_terminalId := None;
     init_packagePath := "/proj";
     init_config := noConfig |}.

Definition proj : Genry :=
  {| vscodeExtension := noContext;
     packagePath := "/proj";
     config := noConfig;
     path := "/home/user" |}.

Definition A : Template :=
  {| name := "A"; description := None;
     generate := fun _ _ => Normal (Fulfilled tt) |}.

Definition B : Template :=
  {| name := "B"; description := Some "second";
     generate := fun _ _ => Normal (Fulfilled tt) |}.

(** A template whose generation routine rejects. *)
Definition Broken : Template :=
  {| name := "Broken"; description := None;
     generate := fun _ _ => Normal (Rejected "generate failed") |}.

(** A module loader given by a table; a path not in the table cannot
    be loaded. *)
Fixpoint modules (table : list (string * export)) (p : string)
  : promise Module :=
  match table with
  | [] => Rejected ("Cannot find module " ++ p)%string
  | (q, v) :: rest =>
      if String.eqb p q then Fulfilled {| default := v |}
      else modules rest p
  end.

(** A file system given by the list of its files: [glob] keeps those
    whose name matches the last segment of the pattern. *)
Definition files_matching (fs : list string) (pattern : string)
    (_ : GlobOptions) : list string :=
  match parse_segment (basename pattern) with
  | Some toks => filter (fun f => match_tokens toks (basename f)) fs
  | None => []
  end.

Definition pick_first (templates : list Template) : option Template :=
  hd_error templates.

Definition cancel (_ : list Template) : option Template := None.

(** [a.genry.ts] exports the template [A]; [b.genry.js] cannot be
    imported; [notes.txt] is no template file. *)
Definition one_bad_fs : list string :=
  ["a.genry.ts"; "b.genry.js"; "notes.txt"].
Definition one_bad_modules : string -> promise Module :=
  modules [("/proj/a.genry.ts", ETemplate A)].

(** Every kind of default export, all importable. *)
Definition mixed_fs : list string :=
  ["src/pair.genry.ts"; "src/single.genry.js"; "empty.genry.ts";
   "null.genry.ts"].
Definition mixed_modules : string -> promise Module :=
  modules [("/proj/src/pair.genry.ts", EArray [A; B]);
           ("/proj/src/single.genry.js", ETemplate Broken);
           ("/proj/empty.genry.ts", EUndefined);
           ("/proj/null.genry.ts", ENull)].

(** One template file, whose template fails to generate. *)
Definition broken_fs : list string := ["broken.genry.ts"].
Definition broken_modules : string -> promise Module :=
  modules [("/proj/broken.genry.ts", ETemplate Broken)].

(** A package that also holds a file exporting an empty array. *)
Definition padded_modules : string -> promise Module :=
  modules [("/proj/a.genry.ts", ETemplate A);
           ("/proj/none.genry.ts", EArray []);
           ("/proj/b.genry.ts", ETemplate B)].

(** pkg-up finding the manifest of [/proj], or none at all. *)
Definition pkg_in_proj (_ : string) : promise (option string) :=
  Fulfilled (Some "/proj/package.json").
Definition no_pkg (_ : string) : promise (option string) := Fulfilled None.

(** cosmiconfig finding no file, or one that excludes [node_modules]. *)
Definition no_rc (_ _ : string) : promise (option CosmiconfigResult) :=
  Fulfilled None.
Definition rc_config : Config :=
  {| include := Some "templates"; exclude := Some "**/node_modules/**";
     registerOptions := None |}.
Definition some_rc (_ _ : string) : promise (option CosmiconfigResult) :=
  Fulfilled (Some {| cc_config := Some rc_config;
                     cc_filepath := "/proj/.genryrc" |}).

(** [genry --path src --ipcServer ipc-1 --terminalId 7] *)
Definition argv_src : Argv :=
  {| argv_path := Some "src";
     argv_ipcServer := Some "ipc-1";
     argv_terminalId := Some "7" |}.

(** [genry] *)
Definition argv_none : Argv :=
  {| argv_path := None; argv_ipcServer := None; argv_terminalId := None |}.

(** ts-node options with compiler options of the user's. *)
Definition user_registerOptions : RegisterOptions :=
  {| compilerOptions :=
       Some [("module", JString "ESNext"); ("strict", JBool true)];
     otherOptions := [("transpileOnly", JBool true)] |}.

End Scenario.

(** [path.isAbsolute(p) ? p : path.join(cwd, p)] *)
Definition resolve_path (dir p : string) : string :=
  if isAbsolute p then p else join dir p.

(** The text the spinner gets once files are matched. *)
Definition prepare_text (n : nat) : string :=
  if Nat.eqb n 1 then "Prepare template"
  else ("Prepare " ++ string_of_nat n ++ " templates")%string.

Section Program.

(** The third-party collaborators: [glob], which is run without [strict]
    and so yields its matches without reporting an error; how the promise
    of [import(p)] settles for each path [p]; and the template the user
    picks in the prompt, if any. *)
Variable glob : string -> GlobOptions -> list string.
Variable import_module : string -> promise Module.
Variable prompts : list Template -> option Template.

(** [import(p)]: the call itself completes normally with a promise; a
    module that cannot be found, or that throws while it is evaluated,
    shows as the rejection of that promise. *)
Definition dynamic_import (p : string) : completion (promise Module) :=
  Normal (import_module p).

(** The callback given to [files.map] in [loadTemplates], with its
    [try] and [catch]: the promise it returns, and the effects of
    producing it. *)
Definition import_file (this : Genry) (file : string)
  : promise export * list effect :=
  let p := join (packagePath this) file in
  match dynamic_import p with
  | Normal m => (promise_then m default, [Import p])
  | Throw e => (Fulfilled ENull, [Import p; ConsoleError e])
  end.

(** [files.map(callback)]: the promises in file order, and the effects. *)
Fixpoint import_files (this : Genry) (files : list string)
  : list (promise export) * list effect :=
  match files with
  | [] => ([], [])
  | file :: rest =>
      let '(p, evs) := import_file this file in
      let '(ps, evs') := import_files this rest in
      (p :: ps, evs ++ evs')
  end.

Definition map_imports (this : Genry) (files : list string)
  : Async (list (promise export)) :=
  fun w =>
    let '(ps, evs) := import_files this files in
    (Fulfilled ps, push w evs).

(** The promises [Promise.all] waits for, and the calls that made them. *)
Definition import_promises (this : Genry) (files : list string)
  : list (promise export) :=
  map (fun f => promise_then (import_module (join (packagePath this) f))
                             default) files.

Definition import_effects (this : Genry) (files : list string) : list effect :=
  map (fun f => Import (join (packagePath this) f)) files.

Definition loadTemplates (this : Genry) (files : list string)
  : Async (list Template) :=
  startedCwd <- process_cwd ;;
  process_chdir (packagePath this) ;;;
  promises <- map_imports this files ;;
  exports <- await (promise_all promises) ;;
  let templates := flatten_exports exports in
  process_chdir startedCwd ;;;
  perform (SpinnerSucceed "Templates loaded") ;;;
  ret templates.

(** The pattern of the template literal in [searchTemplates]; an absent
    or empty [include] is falsy. *)
Definition include_or_default (c : Config) : string :=
  match include c with
  | Some s => if String.eqb s "" then "**" else s
  | None => "**"
  end.

Definition template_pattern (c : Config) : string :=
  (include_or_default c ++ "/*." ++ TEMPLATE_TYPE ++ ".?(ts|js)")%string.

Definition glob_options (this : Genry) : GlobOptions :=
  {| dot := true; nodir := true;
     glob_cwd := packagePath this;
     ignore := exclude (config this) |}.

(** The files the pattern matches. *)
Definition matched (this : Genry) : list string :=
  glob (template_pattern (config this)) (glob_options this).

(** [promisify(glob)(pattern, options)] *)
Definition glob_files (this : Genry) : Async (list string) :=
  let pattern := template_pattern (config this) in
  let opts := glob_options this in
  perform (Glob pattern opts) ;;;
  ret (glob pattern opts).

Definition searchTemplates (this : Genry) : Async (list Template) :=
  perform (SpinnerStart "Loading templates") ;;;
  files <- glob_files this ;;
  match files with
  | [] =>
      perform (SpinnerWarn "Templates not found") ;;;
      perform (Emit EvNotFound) ;;;
      ret []
  | _ :: _ =>
      perform (SpinnerText
                 (if Nat.eqb (length files) 1 then "Prepare template"
                  else ("Prepare " ++ string_of_nat (length files)
                          ++ " templates")%string)) ;;;
      perform (Emit EvFound) ;;;
      loadTemplates this files
  end.

(** The effects of [searchTemplates] up to its notification. *)
Definition search_effects (this : Genry) : list effect :=
  SpinnerStart "Loading templates"
  :: Glob (template_pattern (config this)) (glob_options this)
  :: match matched this with
     | [] => [SpinnerWarn "Templates not found"; Emit EvNotFound]
     | files =>
         [SpinnerText
            (if Nat.eqb (length files) 1 then "Prepare template"
             else ("Prepare " ++ string_of_nat (length files)
                     ++ " templates")%string);
          Emit EvFound]
     end.

(** The picker: the user's choice, or nothing when the prompt is
    cancelled. *)
Definition selectTemplate (templates : list Template)
  : Async (option Template) :=
  perform (Prompts templates) ;;;
  ret (prompts templates).

Definition run_context (this : Genry) : RunContext :=
  {| ctx_path := path this;
     ctx_packagePath := packagePath this;
     ctx_ipcServer := serverId (vscodeExtension this);
     ctx_terminalId := terminalId (vscodeExtension this) |}.

(** [await template.generate(ctx, config)]: a synchronous throw and a
    rejected promise both reject the caller. *)
Definition call_generate (this : Genry) (template : Template) : Async unit :=
  perform (Generate template (run_context this) (config this)) ;;;
  match generate template (run_context this) (config this) with
  | Normal p => await p
  | Throw e => throw e
  end.

Definition start (this : Genry) : Async unit :=
  templates <- searchTemplates this ;;
  match templates with
  | _ :: _ =>
      template <- selectTemplate templates ;;
      match template with
      | Some t => call_generate this t
      | None => ret tt
      end ;;;
      perform (Emit EvEnd)
  | [] => ret tt
  end.

(** What [start] does once [searchTemplates] has settled: its effects
    and the state of the promise it returns. *)
Definition finish_effects (this : Genry) (r : promise (list Template))
  : list effect :=
  match r with
  | Fulfilled ((_ :: _) as templates) =>
      Prompts templates
      :: match prompts templates with
         | None => [Emit EvEnd]
         | Some t =>
             Generate t (run_context this) (config this)
             :: match generate t (run_context this) (config this) with
                | Normal (Fulfilled _) => [Emit EvEnd]
                | Normal (Rejected _) | Throw _ => []
                end
         end
  | Fulfilled [] | Rejected _ => []
  end.

Definition finish_result (this : Genry) (r : promise (list Template))
  : promise unit :=
  match r with
  | Fulfilled ((_ :: _) as templates) =>
      match prompts templates with
      | None => Fulfilled tt
      | Some t =>
          match generate t (run_context this) (config this) with
          | Normal (Fulfilled _) => Fulfilled tt
          | Normal (Rejected e) | Throw e => Rejected e
          end
      end
  | Fulfilled [] => Fulfilled tt
  | Rejected e => Rejected e
  end.

(** The body of the top-level [async] function, once [getInitConfig]
    has resolved. *)
Definition main (init : InitConfig) : Async unit :=
  start (new_Genry init).

(** The templates the loader hands to [start] in a fresh process. *)
Definition loaded (this : Genry) (dir : string) : promise (list Template) :=
  fst (searchTemplates this (boot dir)).

(** The sentence "[end] is emitted if and only if the loader returned a
    non-empty template sequence", for one run. *)
Definition end_iff_templates_loaded (this : Genry) (dir : string) : Prop :=
  1 <= emitted EvEnd (trace (snd (start this (boot dir)))) <->
  exists templates, loaded this dir = Fulfilled templates /\ templates <> [].

(** The effects of [loadTemplates] in a run started in [dir]. *)
Definition load_effects (this : Genry) (dir : string) : list effect :=
  match matched this with
  | [] => []
  | files =>
      Chdir (packagePath this)
      :: import_effects this files
      ++ match promise_all (import_promises this files) with
         | Fulfilled _ => [Chdir dir; SpinnerSucceed "Templates loaded"]
         | Rejected _ => []
         end
  end.

Section Init.

(** pkg-up and the search of cosmiconfig, by the path they start from
    (and the module name). *)
Variable pkgUp : string -> promise (option string).
Variable cosmiconfig_search : string -> string -> promise (option CosmiconfigResult).

Definition getInitConfig (argv : Argv) : Async InitConfig :=
  default_path <- process_cwd ;;
  let p := match argv_path argv with
           | Some given => given
           | None => default_path
           end in
  found <- await
    (promise_all2
       (promise_then_try (pkgUp p) dirname_of)
       (promise_then (cosmiconfig_search MODULE_NAME p)
          (fun c => match c with
                    | Some r => cc_config r
                    | None => None
                    end))) ;;
  dir <- process_cwd ;;
  ret {| args_path := resolve_path dir p;
         args_ipcServer := argv_ipcServer argv;
         args_terminalId := argv_terminalId argv;
         init_packagePath := fst found;
         init_config := match snd found with
                        | Some c => c
                        | None => empty_config
                        end |}.

(** The top-level [async] function. *)
Definition cli (argv : Argv) : Async unit :=
  init <- getInitConfig argv ;;
  main init.

End Init.

(** ** Observations of a trace, piece by piece *)

Lemma emitted_app ev tr1 tr2 :
  emitted ev (tr1 ++ tr2) = emitted ev tr1 + emitted ev tr2.
Proof. unfold emitted. now rewrite filter_app, length_app. Qed.

Lemma imports_app tr1 tr2 : imports (tr1 ++ tr2) = imports tr1 ++ imports tr2.
Proof. apply flat_map_app. Qed.

Lemma generated_app tr1 tr2 :
  generated (tr1 ++ tr2) = generated tr1 ++ generated tr2.
Proof. apply flat_map_app. Qed.

Lemma prompted_app tr1 tr2 :
  prompted (tr1 ++ tr2) = prompted tr1 ++ prompted tr2.
Proof. apply flat_map_app. Qed.

Lemma chdirs_app tr1 tr2 : chdirs (tr1 ++ tr2) = chdirs tr1 ++ chdirs tr2.
Proof. apply flat_map_app. Qed.

Lemma console_errors_app tr1 tr2 :
  console_errors (tr1 ++ tr2) = console_errors tr1 ++ console_errors tr2.
Proof. apply flat_map_app. Qed.

Lemma emitted_import_effects ev this files :
  emitted ev (import_effects this files) = 0.
Proof. induction files as [|f fs IH]; [reflexivity | exact IH]. Qed.

Lemma imports_import_effects this files :
  imports (import_effects this files) = map (join (packagePath this)) files.
Proof.
  induction files as [|f fs IH]; [reflexivity|].
  cbn. now f_equal.
Qed.

Lemma generated_import_effects this files :
  generated (import_effects this files) = [].
Proof. induction files as [|f fs IH]; [reflexivity | exact IH]. Qed.

Lemma prompted_import_effects this files :
  prompted (import_effects this files) = [].
Proof. induction files as [|f fs IH]; [reflexivity | exact IH]. Qed.

Lemma chdirs_import_effects this files :
  chdirs (import_effects this files) = [].
Proof. induction files as [|f fs IH]; [reflexivity | exact IH]. Qed.

Lemma console_errors_import_effects this files :
  console_errors (import_effects this files) = [].
Proof. induction files as [|f fs IH]; [reflexivity | exact IH]. Qed.

Create Rewrite HintDb trace.
Hint Rewrite emitted_app imports_app generated_app prompted_app chdirs_app
  console_errors_app emitted_import_effects imports_import_effects
  generated_import_effects prompted_import_effects chdirs_import_effects
  console_errors_import_effects app_nil_r : trace.

(** ** The loader, in closed form *)

Lemma promise_all_fulfilled {A : Type} (ps : list (promise A)) (l : list A) :
  promise_all ps = Fulfilled l <-> ps = map Fulfilled l.
Proof.
  revert l. induction ps as [|[a|e] ps IH]; intros [|b l]; cbn;
    try (split; intros H; (reflexivity || discriminate)).
  - destruct (promise_all ps); split; discriminate.
  - specialize (IH l).
    destruct (promise_all ps) as [l'|e'].
    + split; intros H.
      * injection H as -> ->. f_equal. now apply IH.
      * injection H as -> H. f_equal. f_equal.
        apply IH in H. now injection H.
    + split; intros H; [discriminate|].
      injection H as -> H. apply IH in H. discriminate.
Qed.

Lemma promise_all_rejected {A : Type} (ps : list (promise A)) :
  existsb (fun p => negb (is_fulfilled p)) ps = true ->
  exists e, promise_all ps = Rejected e.
Proof.
  induction ps as [|[a|e] ps IH]; cbn; intros H.
  - discriminate.
  - destruct (IH H) as [e' ->]. now exists e'.
  - now exists e.
Qed.

Lemma templates_of_app l1 l2 :
  templates_of (l1 ++ l2) = templates_of l1 ++ templates_of l2.
Proof. apply flat_map_app. Qed.

Lemma templates_of_map_Some ts : templates_of (map Some ts) = ts.
Proof. induction ts as [|t ts IH]; cbn; [reflexivity | now f_equal]. Qed.

(** What the filter lets through holds templates only. *)
Lemma as_array_truthy v :
  truthy v = true -> as_array v = map Some (contribution v).
Proof.
  unfold contribution. destruct v as [| |t|ts]; cbn; try discriminate;
    intros _; [reflexivity | now rewrite templates_of_map_Some].
Qed.

Lemma contribution_falsy v : truthy v = false -> contribution v = [].
Proof. unfold contribution. now intros ->. Qed.

Lemma concat_exports_from vs : forall acc,
  fold_left (fun a t => a ++ as_array t) (filter truthy vs) acc
  = acc ++ map Some (flat_map contribution vs).
Proof.
  induction vs as [|v vs IH]; intros acc; cbn [filter flat_map].
  - cbn. now rewrite app_nil_r.
  - destruct (truthy v) eqn:E.
    + cbn [fold_left]. rewrite IH, (as_array_truthy v E).
      now rewrite map_app, app_assoc.
    + now rewrite IH, (contribution_falsy v E).
Qed.

(** The array the loader builds has no empty element: it is, element by
    element, the templates of the exports the filter lets through. *)
Lemma concat_exports_templates vs :
  concat_exports vs = map Some (flat_map contribution vs).
Proof. unfold concat_exports. now rewrite concat_exports_from. Qed.

Lemma flatten_exports_eq vs : flatten_exports vs = flat_map contribution vs.
Proof.
  unfold flatten_exports.
  now rewrite concat_exports_templates, templates_of_map_Some.
Qed.

Lemma import_files_eq this files :
  import_files this files
  = (import_promises this files, import_effects this files).
Proof.
  induction files as [|f fs IH]; [reflexivity|].
  cbn. rewrite IH. reflexivity.
Qed.

Lemma loadTemplates_eq this files w :
  loadTemplates this files w =
  let tr := trace w ++ Chdir (packagePath this) :: import_effects this files in
  match promise_all (import_promises this files) with
  | Fulfilled exports =>
      (Fulfilled (flatten_exports exports),
       {| cwd := cwd w;
          trace := tr ++ [Chdir (cwd w); SpinnerSucceed "Templates loaded"] |})
  | Rejected e => (Rejected e, {| cwd := packagePath this; trace := tr |})
  end.
Proof.
  unfold loadTemplates, bind, process_cwd, process_chdir, map_imports, await,
    perform, ret, push.
  rewrite import_files_eq. cbn.
  destruct (promise_all (import_promises this files)) as [exports|e]; cbn;
    repeat rewrite <- app_assoc; reflexivity.
Qed.

Lemma searchTemplates_eq this w :
  searchTemplates this w =
  match matched this with
  | [] => (Fulfilled [], push w (search_effects this))
  | files => loadTemplates this files (push w (search_effects this))
  end.
Proof.
  unfold searchTemplates, glob_files, search_effects, matched, bind, perform,
    ret, push.
  cbn.
  destruct (glob (template_pattern (config this)) (glob_options this))
    as [|f fs]; cbn; repeat rewrite <- app_assoc; reflexivity.
Qed.

Lemma push_nil w : push w [] = w.
Proof. destruct w. unfold push. cbn. now rewrite app_nil_r. Qed.

Lemma start_eq this w :
  start this w =
  (finish_result this (fst (searchTemplates this w)),
   push (snd (searchTemplates this w))
        (finish_effects this (fst (searchTemplates this w)))).
Proof.
  unfold start, bind at 1.
  destruct (searchTemplates this w) as [[[|t0 ts]|e] w1]; cbn [fst snd];
    try (cbn; now rewrite push_nil).
  unfold selectTemplate, call_generate, bind, perform, ret, await, throw, push.
  cbn.
  destruct (prompts (t0 :: ts)) as [t|]; cbn.
  - destruct (generate t (run_context this) (config this)) as [[[]|e]|e];
      cbn; repeat rewrite <- app_assoc; reflexivity.
  - repeat rewrite <- app_assoc; reflexivity.
Qed.

(** The search: its effects are those up to the notification, then the
    loader's, which are imports, directory changes and spinner text. *)
Lemma searchTemplates_trace this w :
  exists evs,
    trace (snd (searchTemplates this w)) = trace w ++ search_effects this ++ evs /\
    generated evs = [] /\ prompted evs = [] /\
    (forall ev, emitted ev evs = 0) /\
    imports evs = map (join (packagePath this)) (matched this) /\
    (fst (searchTemplates this w) = Fulfilled [] \/ matched this <> []).
Proof.
  rewrite searchTemplates_eq.
  destruct (matched this) as [|f fs] eqn:E.
  - exists []. cbn [fst snd push trace]. rewrite app_nil_r.
    repeat split; auto.
  - rewrite loadTemplates_eq. cbv zeta.
    destruct (promise_all (import_promises this (f :: fs))) as [exports|e];
      [ exists ([Chdir (packagePath this)] ++ import_effects this (f :: fs)
                ++ [Chdir (cwd w); SpinnerSucceed "Templates loaded"])
      | exists ([Chdir (packagePath this)] ++ import_effects this (f :: fs)) ];
      cbn [fst snd trace push cwd];
      (split; [now rewrite <- !app_assoc|]);
      repeat split; try intros ev; try (right; discriminate);
      autorewrite with trace; reflexivity.
Qed.

Lemma search_effects_quiet this :
  generated (search_effects this) = [] /\ prompted (search_effects this) = [] /\
  imports (search_effects this) = [] /\ emitted EvEnd (search_effects this) = 0.
Proof. unfold search_effects. destruct (matched this); cbn; auto. Qed.

Lemma search_effects_notification this :
  emitted EvFound (search_effects this)
    = (match matched this with [] => 0 | _ => 1 end) /\
  emitted EvNotFound (search_effects this)
    = (match matched this with [] => 1 | _ => 0 end).
Proof. unfold search_effects. destruct (matched this); cbn; auto. Qed.

(** ** The loader: what it returns and what it leaves behind *)

(** When every import is fulfilled the loader returns the templates of
    the files in file order, the directory is the one it started in, and
    [process.chdir] was called twice: to the package and back. *)
Lemma loadTemplates_all_fulfilled this files mods w :
  map (fun f => import_module (join (packagePath this) f)) files
    = map Fulfilled mods ->
  loadTemplates this files w =
  (Fulfilled (flat_map (fun m => contribution (default m)) mods),
   {| cwd := cwd w;
      trace := (trace w ++ Chdir (packagePath this) :: import_effects this files)
               ++ [Chdir (cwd w); SpinnerSucceed "Templates loaded"] |}).
Proof.
  intros H. rewrite loadTemplates_eq. cbv zeta.
  assert (E : promise_all (import_promises this files)
              = Fulfilled (map default mods)).
  { apply promise_all_fulfilled. unfold import_promises.
    rewrite <- (map_map (fun f => import_module (join (packagePath this) f))
                  (fun p => promise_then p default)).
    rewrite H. rewrite !map_map. reflexivity. }
  rewrite E, flatten_exports_eq, flat_map_concat_map, map_map.
  now rewrite <- flat_map_concat_map.
Qed.

(** A rejected import rejects the loader: nothing is printed, nothing is
    returned, and the directory stays at the package root. *)
Lemma loadTemplates_rejected_import this files w f e :
  In f files ->
  import_module (join (packagePath this) f) = Rejected e ->
  exists e',
    loadTemplates this files w =
    (Rejected e',
     {| cwd := packagePath this;
        trace := trace w ++ Chdir (packagePath this)
                          :: import_effects this files |}).
Proof.
  intros Hin Hrej. rewrite loadTemplates_eq. cbv zeta.
  destruct (promise_all_rejected (import_promises this files)) as [e' ->].
  - apply existsb_exists.
    exists (promise_then (import_module (join (packagePath this) f)) default).
    split.
    + unfold import_promises.
      apply (in_map (fun f0 => promise_then
                       (import_module (join (packagePath this) f0)) default)).
      exact Hin.
    + now rewrite Hrej.
  - now exists e'.
Qed.


(** ** The run as a whole *)

(** The trace of a run: the search up to its notification, the loader,
    then the picker and the generation. *)
Lemma start_trace this dir :
  exists evs,
    trace (snd (start this (boot dir)))
      = search_effects this ++ evs ++ finish_effects this (loaded this dir) /\
    generated evs = [] /\ prompted evs = [] /\
    (forall ev, emitted ev evs = 0) /\
    imports evs = map (join (packagePath this)) (matched this) /\
    (loaded this dir = Fulfilled [] \/ matched this <> []).
Proof.
  destruct (searchTemplates_trace this (boot dir))
    as (evs & Htr & Hg & Hp & He & Hi & Hl).
  exists evs. rewrite start_eq. cbn [snd push trace].
  rewrite Htr. cbn [boot trace app]. rewrite <- app_assoc.
  unfold loaded. auto 10.
Qed.

Lemma start_result this dir :
  fst (start this (boot dir)) = finish_result this (loaded this dir).
Proof. now rewrite start_eq. Qed.

Lemma finish_effects_generated this r :
  generated (finish_effects this r) =
  match r with
  | Fulfilled ((_ :: _) as templates) =>
      match prompts templates with Some t => [t] | None => [] end
  | _ => []
  end.
Proof.
  destruct r as [[|t0 ts]|e]; cbn; try reflexivity.
  destruct (prompts (t0 :: ts)) as [t|]; cbn; [|reflexivity].
  destruct (generate t (run_context this) (config this)) as [[[]|e]|e];
    reflexivity.
Qed.

Lemma finish_effects_prompted this r :
  prompted (finish_effects this r) =
  match r with
  | Fulfilled ((_ :: _) as templates) => [templates]
  | _ => []
  end.
Proof.
  destruct r as [[|t0 ts]|e]; cbn; try reflexivity.
  destruct (prompts (t0 :: ts)) as [t|]; cbn; [|reflexivity].
  destruct (generate t (run_context this) (config this)) as [[[]|e]|e];
    reflexivity.
Qed.

Lemma finish_effects_end this r :
  emitted EvEnd (finish_effects this r) =
  match r with
  | Fulfilled ((_ :: _) as templates) =>
      match prompts templates with
      | None => 1
      | Some t =>
          match generate t (run_context this) (config this) with
          | Normal (Fulfilled _) => 1
          | _ => 0
          end
      end
  | _ => 0
  end.
Proof.
  destruct r as [[|t0 ts]|e]; cbn; try reflexivity.
  destruct (prompts (t0 :: ts)) as [t|]; cbn; [|reflexivity].
  destruct (generate t (run_context this) (config this)) as [[[]|e]|e];
    reflexivity.
Qed.

Lemma finish_effects_quiet this r :
  imports (finish_effects this r) = [] /\
  emitted EvFound (finish_effects this r) = 0 /\
  emitted EvNotFound (finish_effects this r) = 0.
Proof.
  destruct r as [[|t0 ts]|e]; cbn; auto.
  destruct (prompts (t0 :: ts)) as [t|]; cbn; auto.
  destruct (generate t (run_context this) (config this)) as [[[]|e]|e];
    cbn; auto.
Qed.

(** The templates whose [generate] was called in a run, and the [end]
    notifications, read off the promise the loader returned. *)
Lemma run_generated this dir :
  generated (trace (snd (start this (boot dir))))
  = generated (finish_effects this (loaded this dir)).
Proof.
  destruct (start_trace this dir) as (evs & -> & Hg & _).
  destruct (search_effects_quiet this) as (Hsg & _).
  autorewrite with trace. now rewrite Hsg, Hg.
Qed.

Lemma run_prompted this dir :
  prompted (trace (snd (start this (boot dir))))
  = prompted (finish_effects this (loaded this dir)).
Proof.
  destruct (start_trace this dir) as (evs & -> & _ & Hp & _).
  destruct (search_effects_quiet this) as (_ & Hsp & _).
  autorewrite with trace. now rewrite Hsp, Hp.
Qed.

Lemma run_end this dir :
  emitted EvEnd (trace (snd (start this (boot dir))))
  = emitted EvEnd (finish_effects this (loaded this dir)).
Proof.
  destruct (start_trace this dir) as (evs & -> & _ & _ & He & _).
  destruct (search_effects_quiet this) as (_ & _ & _ & Hse).
  autorewrite with trace. now rewrite Hse, He.
Qed.

Lemma run_notifications this dir :
  emitted EvFound (trace (snd (start this (boot dir))))
    = (match matched this with [] => 0 | _ => 1 end) /\
  emitted EvNotFound (trace (snd (start this (boot dir))))
    = (match matched this with [] => 1 | _ => 0 end).
Proof.
  destruct (start_trace this dir) as (evs & -> & _ & _ & He & _).
  destruct (search_effects_notification this) as (Hf & Hn).
  destruct (finish_effects_quiet this (loaded this dir)) as (_ & Hff & Hfn).
  autorewrite with trace. rewrite Hf, Hn, Hff, Hfn, !He. lia.
Qed.

Lemma run_imports this dir :
  imports (trace (snd (start this (boot dir))))
  = map (join (packagePath this)) (matched this).
Proof.
  destruct (start_trace this dir) as (evs & -> & _ & _ & _ & Hi & _).
  destruct (search_effects_quiet this) as (_ & _ & Hsi & _).
  destruct (finish_effects_quiet this (loaded this dir)) as (Hfi & _).
  autorewrite with trace. rewrite Hsi, Hi, Hfi. now rewrite app_nil_r.
Qed.

(** No match, no templates. *)
Lemma loaded_no_match this dir :
  matched this = [] -> loaded this dir = Fulfilled [].
Proof.
  intros E. unfold loaded. rewrite searchTemplates_eq, E. reflexivity.
Qed.

(** C3: When the loader has returned templates, the user has selected
    one, and its [generate] fails (by throwing or by a rejected promise),
    nothing in the pipeline catches the failure: [start] and the top-level
    function are rejected with that very error, [generate] has been
    called once and not again, no [end] is emitted after it, and the
    process ends with a non-zero status. *)
Theorem generate_failure_reaches_process_boundary init dir templates t e :
  loaded (new_Genry init) dir = Fulfilled templates ->
  templates <> [] ->
  prompts templates = Some t ->
  generate t (run_context (new_Genry init)) (config (new_Genry init)) = Throw e \/
  generate t (run_context (new_Genry init)) (config (new_Genry init))
    = Normal (Rejected e) ->
  fst (start (new_Genry init) (boot dir)) = Rejected e /\
  fst (main init (boot dir)) = Rejected e /\
  generated (trace (snd (main init (boot dir)))) = [t] /\
  emitted EvEnd (trace (snd (main init (boot dir)))) = 0 /\
  process_exit_status (fst (main init (boot dir))) <> 0%Z.
Proof.
  intros Hl Hne Hp Hg. unfold main.
  rewrite start_result, run_generated, run_end.
  rewrite finish_effects_generated, finish_effects_end, Hl.
  destruct templates as [|t0 ts]; [contradiction|].
  unfold finish_result. rewrite Hp.
  destruct Hg as [-> | ->]; cbn; repeat split; discriminate.
Qed.

(** C5: When the pattern matches no file, [searchTemplates] emits
    [notFound] (and not [found]), is fulfilled with the empty sequence and
    imports nothing; the run does nothing more: the picker is not shown,
    no template is generated, [start] is fulfilled and the process ends
    with status 0. *)
Theorem no_match_reports_notFound this dir :
  matched this = [] ->
  fst (searchTemplates this (boot dir)) = Fulfilled [] /\
  emitted EvNotFound (trace (snd (searchTemplates this (boot dir)))) = 1 /\
  emitted EvFound (trace (snd (searchTemplates this (boot dir)))) = 0 /\
  imports (trace (snd (searchTemplates this (boot dir)))) = [] /\
  console_errors (trace (snd (searchTemplates this (boot dir)))) = [] /\
  start this (boot dir) = (Fulfilled tt, snd (searchTemplates this (boot dir))) /\
  prompted (trace (snd (start this (boot dir)))) = [] /\
  generated (trace (snd (start this (boot dir)))) = [] /\
  process_exit_status (fst (start this (boot dir))) = 0%Z.
Proof.
  intros E.
  assert (S : searchTemplates this (boot dir)
              = (Fulfilled [], push (boot dir) (search_effects this))).
  { rewrite searchTemplates_eq, E. reflexivity. }
  rewrite start_eq, S. cbn [fst snd finish_result finish_effects].
  rewrite push_nil. unfold search_effects. rewrite E. cbn. auto 10.
Qed.

(** C6: In every run [generate] is called at most once.  It is called
    exactly once, on the selected template, when the loader returned
    templates and the user selected one; it is not called when the
    pattern matched nothing, when the loader returned no template, or
    when the user cancelled the picker. *)
Theorem generate_called_at_most_once this dir :
  length (generated (trace (snd (start this (boot dir))))) <= 1 /\
  (forall templates t,
      loaded this dir = Fulfilled templates -> templates <> [] ->
      prompts templates = Some t ->
      generated (trace (snd (start this (boot dir)))) = [t]) /\
  (matched this = [] ->
      generated (trace (snd (start this (boot dir)))) = []) /\
  (loaded this dir = Fulfilled [] ->
      generated (trace (snd (start this (boot dir)))) = []) /\
  (forall templates,
      loaded this dir = Fulfilled templates -> prompts templates = None ->
      generated (trace (snd (start this (boot dir)))) = []).
Proof.
  rewrite run_generated, finish_effects_generated.
  repeat split.
  - destruct (loaded this dir) as [[|t0 ts]|e]; cbn; try lia.
    destruct (prompts (t0 :: ts)); cbn; lia.
  - intros templates t -> Hne Hp.
    destruct templates; [contradiction|]. now rewrite Hp.
  - intros E. now rewrite (loaded_no_match this dir E).
  - now intros ->.
  - intros templates -> Hp. destruct templates; [reflexivity|]. now rewrite Hp.
Qed.

(** C7: When the loader returned templates and the user cancels the
    picker, [generate] is never called, [end] is still emitted (once),
    [start] is fulfilled and the process ends with status 0. *)
Theorem cancelled_picker_ends_normally this dir templates :
  loaded this dir = Fulfilled templates ->
  templates <> [] ->
  prompts templates = None ->
  fst (start this (boot dir)) = Fulfilled tt /\
  prompted (trace (snd (start this (boot dir)))) = [templates] /\
  generated (trace (snd (start this (boot dir)))) = [] /\
  emitted EvEnd (trace (snd (start this (boot dir)))) = 1 /\
  process_exit_status (fst (start this (boot dir))) = 0%Z.
Proof.
  intros Hl Hne Hp.
  rewrite start_result, run_prompted, run_generated, run_end.
  rewrite finish_effects_prompted, finish_effects_generated,
    finish_effects_end, Hl.
  destruct templates as [|t0 ts]; [contradiction|].
  unfold finish_result. rewrite Hp. cbn. auto.
Qed.

(** C8: In every run exactly one of [found] and [notFound] is emitted:
    [notFound] when the pattern matched no file and [found] otherwise,
    whatever the imports do afterwards; and no file has been imported
    when it is emitted. *)
Theorem found_xor_notFound_before_imports this dir :
  emitted EvFound (trace (snd (start this (boot dir))))
    + emitted EvNotFound (trace (snd (start this (boot dir)))) = 1 /\
  (emitted EvNotFound (trace (snd (start this (boot dir)))) = 1
     <-> matched this = []) /\
  (emitted EvFound (trace (snd (start this (boot dir)))) = 1
     <-> matched this <> []) /\
  exists pre ev post,
    trace (snd (start this (boot dir))) = pre ++ Emit ev :: post /\
    (ev = EvFound \/ ev = EvNotFound) /\
    imports pre = [] /\
    emitted EvFound post = 0 /\ emitted EvNotFound post = 0.
Proof.
  destruct (run_notifications this dir) as (Hf & Hn).
  rewrite Hf, Hn.
  destruct (start_trace this dir) as (evs & Htr & _ & _ & He & _).
  destruct (finish_effects_quiet this (loaded this dir)) as (_ & Hff & Hfn).
  rewrite Htr. unfold search_effects.
  destruct (matched this) as [|f fs] eqn:E.
  - split; [reflexivity|]. split; [tauto|]. split.
    { split; [discriminate | intros H; now contradiction H]. }
    exists [SpinnerStart "Loading templates";
            Glob (template_pattern (config this)) (glob_options this);
            SpinnerWarn "Templates not found"],
      EvNotFound, (evs ++ finish_effects this (loaded this dir)).
    autorewrite with trace. rewrite Hff, Hfn, !He. cbn. auto.
  - split; [reflexivity|]. split.
    { split; discriminate. }
    split.
    { split; [discriminate | reflexivity]. }
    eexists [SpinnerStart "Loading templates";
             Glob (template_pattern (config this)) (glob_options this);
             SpinnerText _],
      EvFound, (evs ++ finish_effects this (loaded this dir)).
    autorewrite with trace. rewrite Hff, Hfn, !He. cbn. auto.
Qed.

(** C9, as the code has it: [end] is emitted (once) if and only if the
    loader returned a non-empty template sequence and the [generate] call
    of the selected template, when the user selected one, did not fail.
    In particular, when the pattern matched files but the loader returned
    no template, [found] has been emitted, the picker is not shown and
    [end] is not emitted. *)
Theorem end_iff_loaded_and_generation_succeeded this dir :
  emitted EvEnd (trace (snd (start this (boot dir)))) <= 1 /\
  (1 <= emitted EvEnd (trace (snd (start this (boot dir)))) <->
   exists templates,
     loaded this dir = Fulfilled templates /\ templates <> [] /\
     match prompts templates with
     | None => True
     | Some t =>
         exists u, generate t (run_context this) (config this)
                   = Normal (Fulfilled u)
     end) /\
  (matched this <> [] -> loaded this dir = Fulfilled [] ->
   emitted EvFound (trace (snd (start this (boot dir)))) = 1 /\
   prompted (trace (snd (start this (boot dir)))) = [] /\
   emitted EvEnd (trace (snd (start this (boot dir)))) = 0).
Proof.
  destruct (run_notifications this dir) as (Hf & _).
  rewrite run_end, run_prompted, Hf.
  rewrite finish_effects_end, finish_effects_prompted.
  split; [|split].
  - destruct (loaded this dir) as [[|t0 ts]|e]; try lia.
    destruct (prompts (t0 :: ts)) as [t|]; try lia.
    destruct (generate t (run_context this) (config this)) as [[u|e]|e]; lia.
  - destruct (loaded this dir) as [[|t0 ts]|e].
    + split; [lia|]. intros (templates & H & Hne & _).
      injection H as <-. now contradiction Hne.
    + split.
      * intros H. exists (t0 :: ts). split; [reflexivity|].
        split; [discriminate|].
        destruct (prompts (t0 :: ts)) as [t|]; [|exact I].
        destruct (generate t (run_context this) (config this)) as [[u|e]|e];
          [now exists u | lia | lia].
      * intros (templates & H & _ & Hg). injection H as <-.
        destruct (prompts (t0 :: ts)) as [t|]; [|lia].
        destruct Hg as (u & ->). lia.
    + split; [lia|]. intros (templates & H & _). discriminate.
  - intros Hm ->. destruct (matched this); [now contradiction Hm|]. auto.
Qed.

(** ** The pattern and the names of the imported files *)

Lemma basename_from_app_slash a acc b :
  basename_from acc (a ++ "/" ++ b)%string = basename b.
Proof.
  revert acc. induction a as [|c a IH]; intros acc; cbn.
  - reflexivity.
  - destruct (is_slash c); apply IH.
Qed.

Lemma basename_concat a f : basename (a ++ "/" ++ f)%string = basename f.
Proof. apply basename_from_app_slash. Qed.

(** Whatever [include] is, the last segment of the pattern is the same. *)
Lemma basename_template_pattern c :
  basename (template_pattern c) = "*.genry.?(ts|js)".
Proof.
  unfold template_pattern, basename.
  change (include_or_default c ++ "/*." ++ TEMPLATE_TYPE ++ ".?(ts|js)")%string
    with (include_or_default c ++ "/" ++ "*.genry.?(ts|js)")%string.
  now rewrite basename_from_app_slash.
Qed.

Lemma match_star toks s :
  match_tokens (TStar :: toks) s = true ->
  exists pre post, s = (pre ++ post)%string /\ match_tokens toks post = true.
Proof.
  induction s as [|d s IH]; intros H.
  - cbn in H. rewrite orb_false_r in H. now exists ""%string, ""%string.
  - change (match_tokens toks (String d s)
            || negb (is_slash d) && match_tokens (TStar :: toks) s = true) in H.
    apply orb_true_iff in H. destruct H as [H|H].
    + now exists ""%string, (String d s).
    + apply andb_true_iff in H. destruct H as [_ H].
      destruct (IH H) as (pre & post & -> & Hp).
      now exists (String d pre), post.
Qed.

Lemma match_lit c toks s :
  match_tokens (TLit c :: toks) s = true ->
  exists s', s = String c s' /\ match_tokens toks s' = true.
Proof.
  destruct s as [|d s]; cbn; [discriminate|].
  intros H. apply andb_true_iff in H. destruct H as [Hc H].
  apply Ascii.eqb_eq in Hc. subst d. now exists s.
Qed.

Lemma strip_prefix_app a s s' :
  strip_prefix a s = Some s' -> s = (a ++ s')%string.
Proof.
  revert s. induction a as [|c a IH]; intros [|d s]; cbn; intros H;
    try discriminate.
  - now injection H as <-.
  - now injection H as <-.
  - destruct (Ascii.eqb c d) eqn:E; [|discriminate].
    apply Ascii.eqb_eq in E. subst d. f_equal. now apply IH.
Qed.

Lemma append_empty_r s : (s ++ "")%string = s.
Proof. induction s as [|c s IH]; cbn; [reflexivity | now rewrite IH]. Qed.

Lemma match_opt_last alts s :
  match_tokens [TOpt alts] s = true -> s = ""%string \/ In s alts.
Proof.
  cbn. intros H. apply orb_true_iff in H. destruct H as [H|H].
  - left. now destruct s.
  - right. apply existsb_exists in H. destruct H as (a & Ha & H).
    destruct (strip_prefix a s) as [s'|] eqn:E; [|discriminate].
    apply strip_prefix_app in E. destruct s'; [|discriminate].
    subst s. now rewrite append_empty_r.
Qed.

Lemma template_tokens_match b :
  match_tokens template_tokens b = true -> template_basename b.
Proof.
  intros H. unfold template_tokens in H.
  apply match_star in H. destruct H as (stem & post & -> & H).
  repeat (apply match_lit in H;
          let s' := fresh "s" in destruct H as (s' & -> & H)).
  apply match_opt_last in H.
  match goal with H : _ \/ In ?x _ |- _ => exists stem, x end.
  split; [reflexivity|].
  destruct H as [->|H]; [now left | now right].
Qed.

(** *** [path.join] keeps the name of the file *)

Lemma append_assoc (x y z : string) :
  ((x ++ y) ++ z)%string = (x ++ y ++ z)%string.
Proof. induction x as [|c x IH]; cbn; [reflexivity | now rewrite IH]. Qed.

Lemma no_slash_app x y : no_slash (x ++ y) = no_slash x && no_slash y.
Proof.
  induction x as [|c x IH]; cbn; [reflexivity|].
  now rewrite IH, andb_assoc.
Qed.

Lemma basename_from_no_slash x : forall acc,
  no_slash x = true -> basename_from acc x = (acc ++ x)%string.
Proof.
  induction x as [|c x IH]; intros acc H; cbn.
  - now rewrite append_empty_r.
  - cbn in H. apply andb_true_iff in H. destruct H as [Hc Hx].
    apply negb_true_iff in Hc. rewrite Hc, (IH _ Hx).
    now rewrite append_assoc.
Qed.

Lemma no_slash_basename_from s : forall acc,
  no_slash acc = true -> no_slash (basename_from acc s) = true.
Proof.
  induction s as [|c s IH]; intros acc H; cbn; [exact H|].
  destruct (is_slash c) eqn:E; apply IH; [reflexivity|].
  rewrite no_slash_app, H. cbn. now rewrite E.
Qed.

(** The name of a file holds no separator: it is its own name. *)
Lemma basename_idem s : basename (basename s) = basename s.
Proof.
  unfold basename at 1.
  rewrite basename_from_no_slash; [reflexivity|].
  now apply no_slash_basename_from.
Qed.

(** The name of a file is the last of its segments. *)
Lemma split_from_last s : forall acc,
  exists l, split_from acc s = l ++ [basename_from acc s].
Proof.
  induction s as [|c s IH]; intros acc; cbn.
  - now exists [].
  - destruct (is_slash c).
    + destruct (IH ""%string) as [l ->]. now exists (acc :: l).
    + apply IH.
Qed.

Lemma normalize_segments_app allowAboveRoot l1 : forall l2 res,
  normalize_segments allowAboveRoot (l1 ++ l2) res
  = normalize_segments allowAboveRoot l2
      (rev (normalize_segments allowAboveRoot l1 res)).
Proof.
  induction l1 as [|seg l1 IH]; intros l2 res; cbn.
  - now rewrite rev_involutive.
  - destruct (String.eqb seg "" || String.eqb seg "."); [apply IH|].
    destruct (String.eqb seg ".."); [|apply IH].
    destruct res as [|top res]; [apply IH|].
    destruct (String.eqb top ".."); apply IH.
Qed.

Lemma ends_with_slash_basename s : forall acc,
  ends_with_slash s = true -> basename_from acc s = ""%string.
Proof.
  induction s as [|c s IH]; intros acc H; [discriminate|].
  cbn [basename_from]. destruct s as [|d s].
  - cbn in H. now rewrite H.
  - cbn [ends_with_slash] in H. destruct (is_slash c); now apply IH.
Qed.

Lemma join_slash_snoc l b :
  join_slash (l ++ [b]) =
  match l with
  | [] => b
  | _ :: _ => (join_slash l ++ "/" ++ b)%string
  end.
Proof.
  induction l as [|x l IH]; [reflexivity|].
  destruct l as [|y l]; [reflexivity|].
  change (join_slash ((x :: y :: l) ++ [b]))
    with (x ++ "/" ++ join_slash ((y :: l) ++ [b]))%string.
  rewrite IH.
  change (join_slash (x :: y :: l))
    with (x ++ "/" ++ join_slash (y :: l))%string.
  now rewrite !append_assoc.
Qed.

(** Normalising a path whose last segment is the name of a file (not
    empty, not [.] or [..]) leaves that name in place. *)
Lemma basename_normalize p :
  basename p <> ""%string -> basename p <> "."%string ->
  basename p <> ".."%string ->
  basename (normalize p) = basename p.
Proof.
  intros H0 H1 H2. unfold normalize.
  destruct (String.eqb p "") eqn:Ep.
  { apply String.eqb_eq in Ep. subst p. now contradiction H0. }
  assert (T : ends_with_slash p = false).
  { destruct (ends_with_slash p) eqn:E; [|reflexivity].
    contradiction H0. now apply ends_with_slash_basename. }
  rewrite T. unfold split_slash.
  destruct (split_from_last p ""%string) as [l ->].
  fold (basename p). set (b := basename p) in *.
  rewrite normalize_segments_app.
  set (R := normalize_segments (negb (isAbsolute p)) l []).
  apply String.eqb_neq in H0, H1, H2.
  cbn [normalize_segments]. rewrite H0, H1, H2. cbn [orb rev].
  rewrite rev_involutive, join_slash_snoc.
  assert (I : basename b = b) by apply basename_idem.
  destruct R as [|x R].
  - rewrite H0. destruct (isAbsolute p); [|exact I].
    change ("/" ++ b)%string with (String "/" b). exact I.
  - assert (N : String.eqb (join_slash (x :: R) ++ "/" ++ b) "" = false).
    { destruct (join_slash (x :: R)); reflexivity. }
    rewrite N. destruct (isAbsolute p).
    + change ("/" ++ join_slash (x :: R) ++ "/" ++ b)%string
        with (String "/" (join_slash (x :: R) ++ "/" ++ b)).
      unfold basename at 1. cbn [basename_from].
      change (is_slash "/") with true. cbv iota.
      rewrite basename_from_app_slash. exact I.
    + unfold basename at 1. rewrite basename_from_app_slash. exact I.
Qed.

(** [path.join(a, f)] has the file name of [f]. *)
Lemma basename_join a f :
  basename f <> ""%string -> basename f <> "."%string ->
  basename f <> ".."%string ->
  basename (join a f) = basename f.
Proof.
  intros H0 H1 H2. unfold join.
  assert (Hf : String.eqb f "" = false).
  { apply String.eqb_neq. intros ->. now contradiction H0. }
  destruct (String.eqb a "") eqn:Ea.
  - rewrite Hf. now apply basename_normalize.
  - rewrite Hf.
    assert (B : basename (a ++ "/" ++ f) = basename f)
      by apply basename_concat.
    assert (N : String.eqb (a ++ "/" ++ f) "" = false)
      by (destruct a; reflexivity).
    rewrite N. rewrite <- B. apply basename_normalize; now rewrite B.
Qed.

Lemma length_append (x y : string) :
  String.length (x ++ y) = String.length x + String.length y.
Proof. induction x as [|c x IH]; cbn; [reflexivity | now rewrite IH]. Qed.

(** A template file name is a name: not empty, not [.] or [..]. *)
Lemma template_basename_name b :
  template_basename b ->
  b <> ""%string /\ b <> "."%string /\ b <> ".."%string.
Proof.
  intros (stem & ext & -> & _).
  assert (L : 7 <= String.length (stem ++ "." ++ TEMPLATE_TYPE ++ "." ++ ext)).
  { rewrite length_append. cbn. lia. }
  repeat split; intros E; rewrite E in L; cbn in L; lia.
Qed.

(** C10: Whatever [include] and [exclude] are, the last segment of the
    pattern given to [glob] is [*.genry.?(ts|js)]; so, with a [glob]
    that returns only files whose name matches the last segment of its
    pattern, every file the run imports has a name made of any stem, the
    marker [.genry.] and then [ts], [js] or nothing. *)
Theorem imported_files_carry_the_marker this dir p :
  glob_matches_last_segment glob ->
  In p (imports (trace (snd (start this (boot dir))))) ->
  basename (template_pattern (config this)) = "*.genry.?(ts|js)" /\
  template_basename (basename p).
Proof.
  intros Hglob Hin. split; [apply basename_template_pattern|].
  rewrite run_imports in Hin. apply in_map_iff in Hin.
  destruct Hin as (f & <- & Hf).
  assert (T : template_basename (basename f)).
  { apply template_tokens_match.
    apply (Hglob (template_pattern (config this)) (glob_options this)).
    - now rewrite basename_template_pattern.
    - exact Hf. }
  destruct (template_basename_name _ T) as (H0 & H1 & H2).
  now rewrite basename_join.
Qed.

(** ** The run, effect by effect *)

Lemma loaded_eq this dir :
  loaded this dir =
  match matched this with
  | [] => Fulfilled []
  | files => promise_then (promise_all (import_promises this files))
               flatten_exports
  end.
Proof.
  unfold loaded. rewrite searchTemplates_eq.
  destruct (matched this) as [|f fs]; [reflexivity|].
  rewrite loadTemplates_eq. cbv zeta.
  now destruct (promise_all (import_promises this (f :: fs))).
Qed.

(** The world a run ends in. *)
Lemma run_world this dir :
  snd (start this (boot dir)) =
  {| cwd := match loaded this dir with
            | Fulfilled _ => dir
            | Rejected _ => packagePath this
            end;
     trace := search_effects this ++ load_effects this dir
              ++ finish_effects this (loaded this dir) |}.
Proof.
  rewrite start_eq. fold (loaded this dir). rewrite loaded_eq.
  rewrite searchTemplates_eq. unfold load_effects.
  destruct (matched this) as [|f fs] eqn:E.
  - unfold push. cbn [snd boot cwd trace promise_then finish_effects app].
    now rewrite !app_nil_r.
  - rewrite loadTemplates_eq. cbv zeta.
    destruct (promise_all (import_promises this (f :: fs))) as [exports|e];
      unfold push; cbn [snd boot cwd trace promise_then app];
      rewrite <- ?app_assoc; cbn [app]; rewrite ?app_nil_r; reflexivity.
Qed.

Lemma promise_all_rejected_in {A : Type} (ps : list (promise A)) e :
  promise_all ps = Rejected e -> In (Rejected e) ps.
Proof.
  induction ps as [|[a|e'] ps IH]; cbn; intros H.
  - discriminate.
  - destruct (promise_all ps); [discriminate|]. right. now apply IH.
  - left. congruence.
Qed.

Lemma import_promises_rejected this files e :
  In (Rejected e) (import_promises this files) ->
  exists f, In f files /\
            import_module (join (packagePath this) f) = Rejected e.
Proof.
  unfold import_promises. intros H. apply in_map_iff in H.
  destruct H as (f & Hf & Hin). exists f. split; [exact Hin|].
  destruct (import_module (join (packagePath this) f)); [discriminate|].
  cbn in Hf. now injection Hf as ->.
Qed.

Lemma import_promises_some_rejected this files f e :
  In f files ->
  import_module (join (packagePath this) f) = Rejected e ->
  exists e', promise_all (import_promises this files) = Rejected e'.
Proof.
  intros Hin Hrej. apply promise_all_rejected. apply existsb_exists.
  exists (promise_then (import_module (join (packagePath this) f)) default).
  split.
  - unfold import_promises.
    apply (in_map (fun f0 => promise_then
                     (import_module (join (packagePath this) f0)) default)).
    exact Hin.
  - now rewrite Hrej.
Qed.

Lemma spinner_calls_app tr1 tr2 :
  spinner_calls (tr1 ++ tr2) = spinner_calls tr1 ++ spinner_calls tr2.
Proof. apply filter_app. Qed.

Lemma generate_calls_app tr1 tr2 :
  generate_calls (tr1 ++ tr2) = generate_calls tr1 ++ generate_calls tr2.
Proof. apply flat_map_app. Qed.

Lemma glob_calls_app tr1 tr2 :
  glob_calls (tr1 ++ tr2) = glob_calls tr1 ++ glob_calls tr2.
Proof. apply flat_map_app. Qed.

Lemma spinner_calls_import_effects this files :
  spinner_calls (import_effects this files) = [].
Proof. induction files as [|f fs IH]; [reflexivity | exact IH]. Qed.

Lemma generate_calls_import_effects this files :
  generate_calls (import_effects this files) = [].
Proof. induction files as [|f fs IH]; [reflexivity | exact IH]. Qed.

Lemma glob_calls_import_effects this files :
  glob_calls (import_effects this files) = [].
Proof. induction files as [|f fs IH]; [reflexivity | exact IH]. Qed.

Hint Rewrite spinner_calls_app generate_calls_app glob_calls_app
  spinner_calls_import_effects generate_calls_import_effects
  glob_calls_import_effects : trace.

(** X1: When every import is fulfilled, [loadTemplates] returns the
    array the filter and the reduce build, which holds templates only:
    those of the files in file order, those of one file in array order.
    It leaves the process in the directory it was called in, and it
    calls [process.chdir] exactly twice, into the package root and
    back. *)
Theorem loadTemplates_fulfilled_restores this files mods w :
  map (fun f => import_module (join (packagePath this) f)) files
    = map Fulfilled mods ->
  (exists templates,
      fst (loadTemplates this files w) = Fulfilled templates /\
      map Some templates
      = concat (map as_array
                  (filter truthy (map default mods)))) /\
  cwd (snd (loadTemplates this files w)) = cwd w /\
  chdirs (trace (snd (loadTemplates this files w)))
    = chdirs (trace w) ++ [packagePath this; cwd w] /\
  imports (trace (snd (loadTemplates this files w)))
    = imports (trace w) ++ map (join (packagePath this)) files.
Proof.
  intros H. rewrite (loadTemplates_all_fulfilled this files mods w H).
  cbn [fst snd cwd trace]. split.
  - eexists. split; [reflexivity|].
    transitivity (concat_exports (map default mods)).
    { rewrite concat_exports_templates, !flat_map_concat_map, map_map.
      reflexivity. }
    unfold concat_exports.
    generalize (filter truthy (map default mods)). intros l.
    assert (G : forall acc,
               fold_left (fun a t => a ++ as_array t) l acc
               = acc ++ concat (map as_array l)).
    { induction l as [|v l IH]; intros acc; cbn.
      - now rewrite app_nil_r.
      - now rewrite IH, app_assoc. }
    apply G.
  - change (Chdir (packagePath this) :: import_effects this files)
      with ([Chdir (packagePath this)] ++ import_effects this files).
    autorewrite with trace. cbn. autorewrite with trace.
    rewrite <- !app_assoc. auto.
Qed.

(** X2: When the import of some file is rejected, [loadTemplates] is
    rejected with the error of a file whose import was rejected.  Every
    file has been given to [import()] all the same, the process is left
    in the package root and the spinner is not told of a success. *)
Theorem loadTemplates_rejected_by_import this files w f e :
  In f files ->
  import_module (join (packagePath this) f) = Rejected e ->
  (exists f' e',
      In f' files /\
      import_module (join (packagePath this) f') = Rejected e' /\
      fst (loadTemplates this files w) = Rejected e') /\
  cwd (snd (loadTemplates this files w)) = packagePath this /\
  imports (trace (snd (loadTemplates this files w)))
    = imports (trace w) ++ map (join (packagePath this)) files /\
  chdirs (trace (snd (loadTemplates this files w)))
    = chdirs (trace w) ++ [packagePath this] /\
  spinner_calls (trace (snd (loadTemplates this files w)))
    = spinner_calls (trace w).
Proof.
  intros Hin Hrej. rewrite loadTemplates_eq. cbv zeta.
  destruct (import_promises_some_rejected this files f e Hin Hrej) as [e' E].
  rewrite E. cbn [fst snd cwd trace].
  split.
  - apply promise_all_rejected_in, import_promises_rejected in E.
    destruct E as (f' & Hf' & E'). now exists f', e'.
  - change (Chdir (packagePath this) :: import_effects this files)
      with ([Chdir (packagePath this)] ++ import_effects this files).
    autorewrite with trace. cbn. autorewrite with trace. auto.
Qed.

Lemma load_effects_split this dir :
  load_effects this dir =
  match matched this with
  | [] => []
  | files =>
      [Chdir (packagePath this)] ++ import_effects this files
      ++ match loaded this dir with
         | Fulfilled _ => [Chdir dir; SpinnerSucceed "Templates loaded"]
         | Rejected _ => []
         end
  end.
Proof.
  unfold load_effects. rewrite loaded_eq.
  destruct (matched this) as [|f fs]; [reflexivity|].
  now destruct (promise_all (import_promises this (f :: fs))).
Qed.

Lemma loaded_rejected_matched this dir e :
  loaded this dir = Rejected e -> matched this <> [].
Proof. rewrite loaded_eq. now destruct (matched this). Qed.

(** X4: The spinner is started first in every run.  With no file
    matched it is told to warn; with files matched it gets the text for
    their number and is then told of the success when the loader is
    fulfilled; when the loader is rejected the text is the last thing it
    gets. *)
Theorem spinner_protocol this dir :
  spinner_calls (trace (snd (start this (boot dir)))) =
  SpinnerStart "Loading templates"
  :: match matched this with
     | [] => [SpinnerWarn "Templates not found"]
     | files =>
         SpinnerText (prepare_text (length files))
         :: match loaded this dir with
            | Fulfilled _ => [SpinnerSucceed "Templates loaded"]
            | Rejected _ => []
            end
     end.
Proof.
  rewrite run_world, load_effects_split. cbn [trace].
  unfold search_effects.
  assert (F : spinner_calls (finish_effects this (loaded this dir)) = []).
  { destruct (loaded this dir) as [[|t0 ts]|e]; cbn; try reflexivity.
    destruct (prompts (t0 :: ts)) as [t|]; cbn; [|reflexivity].
    now destruct (generate t (run_context this) (config this)) as [[[]|e]|e]. }
  destruct (matched this) as [|f fs].
  - autorewrite with trace. rewrite F. reflexivity.
  - autorewrite with trace. rewrite F.
    now destruct (loaded this dir).
Qed.

(** X5: The picker is shown at most once in a run, and only the
    non-empty list of templates the loader returned: never an empty
    list, and nothing when the loader is rejected. *)
Theorem picker_shown_what_was_loaded this dir :
  length (prompted (trace (snd (start this (boot dir))))) <= 1 /\
  (forall choices,
      In choices (prompted (trace (snd (start this (boot dir))))) ->
      choices <> [] /\ loaded this dir = Fulfilled choices) /\
  (forall templates,
      loaded this dir = Fulfilled templates -> templates <> [] ->
      prompted (trace (snd (start this (boot dir)))) = [templates]).
Proof.
  rewrite run_prompted, finish_effects_prompted.
  destruct (loaded this dir) as [[|t0 ts]|e]; cbn.
  - split; [lia|]. split; [contradiction|].
    intros templates H Hne. injection H as <-. now contradiction Hne.
  - split; [lia|]. split.
    + intros choices [<-|[]]. split; [discriminate | reflexivity].
    + intros templates H _. now injection H as <-.
  - split; [lia|]. split; [contradiction | discriminate].
Qed.

Lemma search_effects_silent this :
  generate_calls (search_effects this) = [] /\
  console_errors (search_effects this) = [] /\
  chdirs (search_effects this) = [] /\
  glob_calls (search_effects this)
    = [(template_pattern (config this), glob_options this)].
Proof. unfold search_effects. destruct (matched this); cbn; auto. Qed.

Lemma load_effects_silent this dir :
  generate_calls (load_effects this dir) = [] /\
  glob_calls (load_effects this dir) = [] /\
  emitted EvEnd (load_effects this dir) = 0.
Proof.
  rewrite load_effects_split.
  destruct (matched this) as [|f fs]; [cbn; auto|].
  autorewrite with trace. destruct (loaded this dir); cbn; auto.
Qed.

Lemma finish_effects_generate_calls this r :
  generate_calls (finish_effects this r) =
  match r with
  | Fulfilled ((_ :: _) as templates) =>
      match prompts templates with
      | Some t => [(t, run_context this, config this)]
      | None => []
      end
  | _ => []
  end.
Proof.
  destruct r as [[|t0 ts]|e]; cbn; try reflexivity.
  destruct (prompts (t0 :: ts)) as [t|]; cbn; [|reflexivity].
  destruct (generate t (run_context this) (config this)) as [[[]|e]|e];
    reflexivity.
Qed.

Lemma finish_effects_silent this r :
  glob_calls (finish_effects this r) = [] /\
  chdirs (finish_effects this r) = [].
Proof.
  destruct r as [[|t0 ts]|e]; cbn; auto.
  destruct (prompts (t0 :: ts)) as [t|]; cbn; auto.
  destruct (generate t (run_context this) (config this)) as [[[]|e]|e];
    cbn; auto.
Qed.

(** X6: Whenever [generate] is called in a run, the loader had
    returned a list of templates, the picker, shown that list, had
    returned the template it is called on, and the arguments are the
    context made of the instance's [path] and [packagePath] and of the
    [serverId] and [terminalId] of its [vscodeExtension], and the
    instance's [config]. *)
Theorem generate_receives_context this dir t ctx cfg :
  In (t, ctx, cfg) (generate_calls (trace (snd (start this (boot dir))))) ->
  ctx = {| ctx_path := path this;
           ctx_packagePath := packagePath this;
           ctx_ipcServer := serverId (vscodeExtension this);
           ctx_terminalId := terminalId (vscodeExtension this) |} /\
  cfg = config this /\
  exists templates,
    loaded this dir = Fulfilled templates /\
    templates <> [] /\
    prompted (trace (snd (start this (boot dir)))) = [templates] /\
    prompts templates = Some t.
Proof.
  rewrite run_prompted, finish_effects_prompted.
  rewrite run_world. cbn [trace]. autorewrite with trace.
  destruct (search_effects_silent this) as (-> & _).
  destruct (load_effects_silent this dir) as (-> & _).
  rewrite finish_effects_generate_calls. cbn [app].
  destruct (loaded this dir) as [[|t0 ts]|e]; try contradiction.
  destruct (prompts (t0 :: ts)) as [t'|] eqn:P; [|contradiction].
  intros [H|[]]. injection H as <- <- <-.
  split; [reflexivity|]. split; [reflexivity|].
  exists (t0 :: ts). repeat split; [discriminate | exact P].
Qed.

(** X7: A run whose loader is fulfilled ends in the directory it
    started in; a run whose loader is rejected ends in the package root.
    The only calls of [process.chdir] are the loader's: none when no
    file matched, into the package root when files matched, and back
    when the loader is fulfilled. *)
Theorem run_directory this dir :
  cwd (snd (start this (boot dir)))
    = match loaded this dir with
      | Fulfilled _ => dir
      | Rejected _ => packagePath this
      end /\
  chdirs (trace (snd (start this (boot dir))))
    = match matched this with
      | [] => []
      | _ :: _ =>
          packagePath this
          :: match loaded this dir with
             | Fulfilled _ => [dir]
             | Rejected _ => []
             end
      end.
Proof.
  rewrite run_world. cbn [cwd trace]. split; [reflexivity|].
  autorewrite with trace.
  destruct (search_effects_silent this) as (_ & _ & -> & _).
  destruct (finish_effects_silent this (loaded this dir)) as (_ & ->).
  rewrite load_effects_split.
  destruct (matched this) as [|f fs]; [reflexivity|].
  autorewrite with trace. now destruct (loaded this dir).
Qed.

(** X9: Every run calls [glob] exactly once, with the pattern of the
    configuration, rooted at the package root, with dot files included,
    directories left out and [exclude] as what to ignore. *)
Theorem glob_called_once this dir :
  glob_calls (trace (snd (start this (boot dir))))
  = [(template_pattern (config this),
      {| dot := true; nodir := true;
         glob_cwd := packagePath this;
         ignore := exclude (config this) |})].
Proof.
  rewrite run_world. cbn [trace]. autorewrite with trace.
  destruct (search_effects_silent this) as (_ & _ & _ & ->).
  destruct (load_effects_silent this dir) as (_ & -> & _).
  destruct (finish_effects_silent this (loaded this dir)) as (-> & _).
  reflexivity.
Qed.

(** X10: In every run each matched file is given to [import()] exactly
    once, joined to the package root, in the order [glob] returned
    them: also the files after one whose import is rejected. *)
Theorem every_match_imported_once this dir :
  imports (trace (snd (start this (boot dir))))
    = map (join (packagePath this)) (matched this) /\
  length (imports (trace (snd (start this (boot dir)))))
    = length (matched this).
Proof.
  rewrite run_imports. split; [reflexivity | apply length_map].
Qed.

Lemma entries_zero_contribution v : entries v = 0 -> contribution v = [].
Proof.
  unfold contribution.
  destruct v as [| |t|ts]; cbn; try reflexivity; try discriminate.
  now destruct ts.
Qed.

(** X11: A file whose default export has no entry ([null], [undefined]
    or an empty array) changes nothing to the array the loader builds,
    nor to what it returns: with every import fulfilled, they are those
    of the list without that file. *)
Theorem empty_export_changes_nothing this before f after mods1 m mods2 w :
  map (fun f => import_module (join (packagePath this) f)) before
    = map Fulfilled mods1 ->
  import_module (join (packagePath this) f) = Fulfilled m ->
  map (fun f => import_module (join (packagePath this) f)) after
    = map Fulfilled mods2 ->
  entries (default m) = 0 ->
  concat_exports (map default (mods1 ++ m :: mods2))
    = concat_exports (map default (mods1 ++ mods2)) /\
  fst (loadTemplates this (before ++ f :: after) w)
    = fst (loadTemplates this (before ++ after) w).
Proof.
  intros H1 Hf H2 Hm. split.
  - rewrite !concat_exports_templates, !map_app, !flat_map_app.
    cbn [map flat_map]. now rewrite (entries_zero_contribution _ Hm).
  - rewrite (loadTemplates_all_fulfilled this (before ++ f :: after)
               (mods1 ++ m :: mods2) w).
    + rewrite (loadTemplates_all_fulfilled this (before ++ after)
                 (mods1 ++ mods2) w).
      * cbn [fst]. rewrite !flat_map_app. cbn [flat_map].
        now rewrite (entries_zero_contribution _ Hm).
      * now rewrite !map_app, H1, H2.
    + rewrite !map_app. cbn [map]. now rewrite H1, Hf, H2.
Qed.

(** X12: When [end] is emitted it is the last effect of the run, and it
    is emitted once. *)
Theorem end_is_last this dir :
  1 <= emitted EvEnd (trace (snd (start this (boot dir)))) ->
  exists before,
    trace (snd (start this (boot dir))) = before ++ [Emit EvEnd] /\
    emitted EvEnd before = 0.
Proof.
  rewrite run_world. cbn [trace]. autorewrite with trace.
  destruct (search_effects_quiet this) as (_ & _ & _ & Hs).
  destruct (load_effects_silent this dir) as (_ & _ & Hl).
  rewrite Hs, Hl. cbn [Nat.add].
  destruct (loaded this dir) as [[|t0 ts]|e]; cbn [finish_effects];
    try (cbn; lia).
  destruct (prompts (t0 :: ts)) as [t|].
  - destruct (generate t (run_context this) (config this)) as [[[]|e]|e];
      try (cbn; lia).
    intros _.
    exists (search_effects this ++ load_effects this dir
            ++ [Prompts (t0 :: ts);
                Generate t (run_context this) (config this)]).
    split.
    + rewrite <- !app_assoc. reflexivity.
    + autorewrite with trace. rewrite Hs, Hl. reflexivity.
  - intros _.
    exists (search_effects this ++ load_effects this dir
            ++ [Prompts (t0 :: ts)]).
    split.
    + rewrite <- !app_assoc. reflexivity.
    + autorewrite with trace. rewrite Hs, Hl. reflexivity.
Qed.

(** X13: When the import of a matched file is rejected the whole run is
    rejected with the error of a rejected import: [found] has been
    emitted, but the picker is not shown, nothing is generated, [end]
    is not emitted and the process ends with status 1. *)
Theorem failed_import_ends_run this dir f e :
  In f (matched this) ->
  import_module (join (packagePath this) f) = Rejected e ->
  (exists f' e',
      In f' (matched this) /\
      import_module (join (packagePath this) f') = Rejected e' /\
      fst (start this (boot dir)) = Rejected e') /\
  emitted EvFound (trace (snd (start this (boot dir)))) = 1 /\
  prompted (trace (snd (start this (boot dir)))) = [] /\
  generated (trace (snd (start this (boot dir)))) = [] /\
  emitted EvEnd (trace (snd (start this (boot dir)))) = 0 /\
  process_exit_status (fst (start this (boot dir))) = 1%Z.
Proof.
  intros Hin Hrej.
  destruct (run_notifications this dir) as (Hf & _).
  rewrite start_result, run_prompted, run_generated, run_end, Hf.
  rewrite finish_effects_prompted, finish_effects_generated,
    finish_effects_end, loaded_eq.
  destruct (matched this) as [|f0 fs] eqn:E; [contradiction|].
  destruct (import_promises_some_rejected this (f0 :: fs) f e Hin Hrej)
    as [e' P].
  rewrite P. cbn. split; [|auto].
  apply promise_all_rejected_in, import_promises_rejected in P.
  destruct P as (f' & Hf' & P). now exists f', e'.
Qed.

(** ** Before the run: [getInitConfig] *)

(** The path yargs hands over: the one given, or the default. *)
Lemma getInitConfig_eq pkgUp cosmiconfig_search argv w :
  getInitConfig pkgUp cosmiconfig_search argv w =
  let p := match argv_path argv with Some given => given | None => cwd w end in
  (promise_then
     (promise_all2
        (promise_then_try (pkgUp p) dirname_of)
        (promise_then (cosmiconfig_search MODULE_NAME p)
           (fun c => match c with Some r => cc_config r | None => None end)))
     (fun found =>
        {| args_path := resolve_path (cwd w) p;
           args_ipcServer := argv_ipcServer argv;
           args_terminalId := argv_terminalId argv;
           init_packagePath := fst found;
           init_config := match snd found with
                          | Some c => c
                          | None => empty_config
                          end |}),
   w).
Proof.
  unfold getInitConfig, bind, process_cwd, await, ret. cbn.
  now destruct (promise_all2 _ _).
Qed.

Lemma cli_eq pkgUp cosmiconfig_search argv w :
  cli pkgUp cosmiconfig_search argv w =
  match fst (getInitConfig pkgUp cosmiconfig_search argv w) with
  | Fulfilled init => main init w
  | Rejected e => (Rejected e, w)
  end.
Proof.
  unfold cli, bind. rewrite getInitConfig_eq. cbv zeta. cbn [fst].
  now destruct (promise_then _ _).
Qed.

Lemma join_absolute a b : isAbsolute a = true -> isAbsolute (join a b) = true.
Proof.
  destruct a as [|c a]; [discriminate|]. cbn [isAbsolute]. intros Hc.
  unfold join. cbn [String.eqb].
  assert (N : forall s, isAbsolute (normalize (String c s)) = true).
  { intros s. unfold normalize. cbn [String.eqb isAbsolute]. rewrite Hc.
    destruct (String.eqb _ ""); [reflexivity|].
    now destruct (ends_with_slash (String c s)). }
  destruct (String.eqb b ""); cbn [append String.eqb]; apply N.
Qed.

Lemma resolve_path_absolute dir p :
  isAbsolute dir = true -> isAbsolute (resolve_path dir p) = true.
Proof.
  intros H. unfold resolve_path.
  destruct (isAbsolute p) eqn:E; [exact E | now apply join_absolute].
Qed.

(** X14: The path [getInitConfig] resolves is the one given when that
    is absolute, and the working directory when none is given; it is
    absolute whenever the working directory is, and resolving it again
    gives it back. *)
Theorem getInitConfig_resolves_path pkgUp cosmiconfig_search argv w init :
  fst (getInitConfig pkgUp cosmiconfig_search argv w) = Fulfilled init ->
  isAbsolute (cwd w) = true ->
  isAbsolute (args_path init) = true /\
  resolve_path (cwd w) (args_path init) = args_path init /\
  (argv_path argv = None -> args_path init = cwd w) /\
  (forall p, argv_path argv = Some p -> isAbsolute p = true ->
             args_path init = p).
Proof.
  rewrite getInitConfig_eq. cbv zeta. cbn [fst]. intros H Habs.
  destruct (promise_all2 _ _) as [found|e]; [|discriminate].
  cbn in H. injection H as <-. cbn [args_path].
  assert (A : isAbsolute
                (resolve_path (cwd w)
                   match argv_path argv with
                   | Some given => given
                   | None => cwd w
                   end) = true) by now apply resolve_path_absolute.
  split; [exact A|]. split.
  - unfold resolve_path at 1. now rewrite A.
  - split.
    + intros ->. unfold resolve_path. now rewrite Habs.
    + intros p -> Hp. unfold resolve_path. now rewrite Hp.
Qed.

(** X15: [getInitConfig] is fulfilled exactly when pkg-up finds a
    manifest and the search of cosmiconfig is fulfilled.  The package
    root is then the directory of the manifest, the configuration is
    the one found, or the empty one when no file or an empty one is
    found, and the two ids are those of the command line. *)
Theorem getInitConfig_fulfilled pkgUp cosmiconfig_search argv w :
  let p := match argv_path argv with Some given => given | None => cwd w end in
  ((exists init,
       fst (getInitConfig pkgUp cosmiconfig_search argv w) = Fulfilled init)
   <-> (exists manifest, pkgUp p = Fulfilled (Some manifest)) /\
       (exists found, cosmiconfig_search MODULE_NAME p = Fulfilled found)) /\
  (forall manifest found,
      pkgUp p = Fulfilled (Some manifest) ->
      cosmiconfig_search MODULE_NAME p = Fulfilled found ->
      fst (getInitConfig pkgUp cosmiconfig_search argv w) =
      Fulfilled
        {| args_path := resolve_path (cwd w) p;
           args_ipcServer := argv_ipcServer argv;
           args_terminalId := argv_terminalId argv;
           init_packagePath := dirname manifest;
           init_config :=
             match found with
             | Some {| cc_config := Some c |} => c
             | _ => empty_config
             end |}).
Proof.
  cbv zeta. rewrite getInitConfig_eq. cbv zeta. cbn [fst]. split.
  - destruct (pkgUp _) as [[manifest|]|e1];
      destruct (cosmiconfig_search MODULE_NAME _) as [found|e2]; cbn; split;
      try (intros (init & H); discriminate);
      try (intros ((manifest' & H1) & (found' & H2)); discriminate).
    + intros _. split; [now exists manifest | now exists found].
    + intros _. eexists. reflexivity.
  - intros manifest found -> ->. cbn.
    destruct found as [[[c|] fp]|]; reflexivity.
Qed.

(** X16: When pkg-up finds no manifest the top-level function is
    rejected before anything is done: no spinner, no [glob], no
    notification, and the process ends with status 1.  With the search
    of cosmiconfig fulfilled, the error is the [TypeError] of
    [path.dirname]. *)
Theorem no_manifest_no_run pkgUp cosmiconfig_search argv dir :
  pkgUp (match argv_path argv with Some given => given | None => dir end)
    = Fulfilled None ->
  (exists e,
      cli pkgUp cosmiconfig_search argv (boot dir) = (Rejected e, boot dir)) /\
  process_exit_status (fst (cli pkgUp cosmiconfig_search argv (boot dir)))
    = 1%Z /\
  (forall found,
      cosmiconfig_search MODULE_NAME
        (match argv_path argv with Some given => given | None => dir end)
        = Fulfilled found ->
      fst (cli pkgUp cosmiconfig_search argv (boot dir))
        = Rejected ERR_INVALID_ARG_TYPE).
Proof.
  intros H. rewrite cli_eq, getInitConfig_eq. cbv zeta.
  cbn [boot cwd fst]. rewrite H. cbn.
  split; [eexists; reflexivity | split; reflexivity].
Qed.

(** X17: With a manifest found and no configuration found (no file, or
    an empty one), the run looks for [**/*.genry.?(ts|js)] under the
    directory of the manifest and ignores nothing. *)
Theorem no_config_default_search pkgUp cosmiconfig_search argv dir manifest found :
  pkgUp (match argv_path argv with Some given => given | None => dir end)
    = Fulfilled (Some manifest) ->
  cosmiconfig_search MODULE_NAME
    (match argv_path argv with Some given => given | None => dir end)
    = Fulfilled found ->
  match found with Some r => cc_config r | None => None end = None ->
  glob_calls (trace (snd (cli pkgUp cosmiconfig_search argv (boot dir))))
  = [("**/*.genry.?(ts|js)"%string,
      {| dot := true; nodir := true;
         glob_cwd := dirname manifest;
         ignore := None |})].
Proof.
  intros H1 H2 H3. rewrite cli_eq, getInitConfig_eq. cbv zeta.
  cbn [boot cwd fst]. rewrite H1, H2. cbn [promise_then_try dirname_of
    promise_then promise_all2 fst snd]. rewrite H3.
  unfold main. rewrite run_world. cbn [trace]. autorewrite with trace.
  match goal with |- context [search_effects ?g] =>
    destruct (search_effects_silent g) as (_ & _ & _ & ->);
    destruct (load_effects_silent g dir) as (_ & -> & _);
    destruct (finish_effects_silent g (loaded g dir)) as (-> & _)
  end.
  reflexivity.
Qed.

(** X18: From the command line to the template: whenever a run that
    starts in an absolute directory calls [generate], the path in the
    context is absolute (the [--path] given, resolved, or the starting
    directory), the package root is the directory of the manifest
    pkg-up found, and the configuration is the one cosmiconfig found,
    or the empty one. *)
Theorem cli_context pkgUp cosmiconfig_search argv dir t ctx cfg :
  isAbsolute dir = true ->
  In (t, ctx, cfg)
     (generate_calls
        (trace (snd (cli pkgUp cosmiconfig_search argv (boot dir))))) ->
  isAbsolute (ctx_path ctx) = true /\
  ctx_path ctx
    = resolve_path dir
        (match argv_path argv with Some given => given | None => dir end) /\
  (exists manifest,
      pkgUp (match argv_path argv with Some given => given | None => dir end)
        = Fulfilled (Some manifest) /\
      ctx_packagePath ctx = dirname manifest) /\
  (exists found,
      cosmiconfig_search MODULE_NAME
        (match argv_path argv with Some given => given | None => dir end)
        = Fulfilled found /\
      cfg = match found with
            | Some {| cc_config := Some c |} => c
            | _ => empty_config
            end).
Proof.
  intros Habs. rewrite cli_eq, getInitConfig_eq. cbv zeta.
  cbn [boot cwd fst].
  destruct (pkgUp _) as [[manifest|]|e1];
    destruct (cosmiconfig_search MODULE_NAME _) as [found|e2];
    cbn [promise_then_try dirname_of promise_then promise_all2 fst snd
         trace boot generate_calls flat_map];
    try contradiction.
  unfold main. rewrite run_world. cbn [trace]. autorewrite with trace.
  match goal with |- context [search_effects ?g] =>
    destruct (search_effects_silent g) as (-> & _);
    destruct (load_effects_silent g dir) as (-> & _);
    rewrite (finish_effects_generate_calls g);
    destruct (loaded g dir) as [[|t0 ts]|e]; try contradiction
  end.
  cbn [app]. destruct (prompts (t0 :: ts)) as [t'|]; [|contradiction].
  intros [H|[]]. injection H as <- <- <-. cbn.
  split; [now apply resolve_path_absolute|].
  split; [reflexivity|].
  split; [now exists manifest|].
  exists found. split; [reflexivity|].
  destruct found as [[[c|] fp]|]; reflexivity.
Qed.

End Program.

(** ** The examples of the specification, run *)

(** C1: With [a.genry.ts] exporting the template [A] and [b.genry.js]
    failing to import, the loader should log the failure and return [A];
    the code rejects instead: the failed import is a rejected promise,
    which the [try]/[catch] of the callback never sees, so [Promise.all]
    rejects, nothing is printed with [console.error] and no template is
    returned. *)
Theorem loadTemplates_failed_import_aborts :
  loadTemplates Scenario.one_bad_modules Scenario.proj
    ["a.genry.ts"; "b.genry.js"] (boot "/home/user")
  = (Rejected "Cannot find module /proj/b.genry.js",
     {| cwd := "/proj";
        trace := [Chdir "/proj"; Import "/proj/a.genry.ts";
                  Import "/proj/b.genry.js"] |}).
Proof. reflexivity. Qed.

(** C2: With the one matched file failing to import, the directory after
    the call should be the one before it; the code leaves the process in
    the package root, and the only [process.chdir] made is the one into
    it. *)
Theorem loadTemplates_failed_import_leaves_cwd :
  let before := boot "/home/user" in
  let after :=
    snd (loadTemplates Scenario.one_bad_modules Scenario.proj
           ["b.genry.js"] before) in
  cwd after = "/proj" /\ cwd after <> cwd before /\
  chdirs (trace after) = ["/proj"].
Proof. cbn. repeat split. discriminate. Qed.


(** The run in which the only template fails to generate. *)
Lemma generate_failure_reaches_process_boundary_witness :
  fst (main (Scenario.files_matching Scenario.broken_fs)
         Scenario.broken_modules Scenario.pick_first Scenario.init
         (boot "/home/user")) = Rejected "generate failed" /\
  generated (trace (snd (main (Scenario.files_matching Scenario.broken_fs)
                           Scenario.broken_modules Scenario.pick_first
                           Scenario.init (boot "/home/user"))))
    = [Scenario.Broken].
Proof.
  pose proof (generate_failure_reaches_process_boundary
                (Scenario.files_matching Scenario.broken_fs)
                Scenario.broken_modules Scenario.pick_first Scenario.init
                "/home/user" [Scenario.Broken] Scenario.Broken
                "generate failed") as H.
  destruct H as (_ & Hr & Hg & _).
  - reflexivity.
  - discriminate.
  - reflexivity.
  - right. reflexivity.
  - split; assumption.
Defined.

(** A package with no template file. *)
Lemma no_match_reports_notFound_witness :
  matched (Scenario.files_matching ["notes.txt"]) Scenario.proj = [] /\
  start (Scenario.files_matching ["notes.txt"]) Scenario.one_bad_modules
    Scenario.pick_first Scenario.proj (boot "/home/user")
  = (Fulfilled tt,
     snd (searchTemplates (Scenario.files_matching ["notes.txt"])
            Scenario.one_bad_modules Scenario.proj (boot "/home/user"))).
Proof.
  split; [reflexivity|].
  apply (no_match_reports_notFound (Scenario.files_matching ["notes.txt"])
           Scenario.one_bad_modules Scenario.pick_first Scenario.proj
           "/home/user").
  reflexivity.
Defined.

(** The first of three templates is selected and generated, once. *)
Lemma generate_called_at_most_once_witness :
  generated (trace (snd (start (Scenario.files_matching Scenario.mixed_fs)
                           Scenario.mixed_modules Scenario.pick_first
                           Scenario.proj (boot "/home/user"))))
    = [Scenario.A].
Proof.
  apply (generate_called_at_most_once
           (Scenario.files_matching Scenario.mixed_fs)
           Scenario.mixed_modules Scenario.pick_first Scenario.proj
           "/home/user")
    with (templates := [Scenario.A; Scenario.B; Scenario.Broken]).
  - reflexivity.
  - discriminate.
  - reflexivity.
Defined.

(** Three templates on offer, and the picker cancelled. *)
Lemma cancelled_picker_ends_normally_witness :
  loaded (Scenario.files_matching Scenario.mixed_fs) Scenario.mixed_modules
    Scenario.proj "/home/user"
    = Fulfilled [Scenario.A; Scenario.B; Scenario.Broken] /\
  emitted EvEnd
    (trace (snd (start (Scenario.files_matching Scenario.mixed_fs)
                   Scenario.mixed_modules Scenario.cancel Scenario.proj
                   (boot "/home/user")))) = 1.
Proof.
  split; [reflexivity|].
  apply (cancelled_picker_ends_normally
           (Scenario.files_matching Scenario.mixed_fs)
           Scenario.mixed_modules Scenario.cancel Scenario.proj
           "/home/user" [Scenario.A; Scenario.B; Scenario.Broken]).
  - reflexivity.
  - discriminate.
  - reflexivity.
Defined.

(** [found] is emitted although the second of the two files fails. *)
Lemma found_xor_notFound_before_imports_witness :
  emitted EvFound
    (trace (snd (start (Scenario.files_matching Scenario.one_bad_fs)
                   Scenario.one_bad_modules Scenario.pick_first Scenario.proj
                   (boot "/home/user"))))
  + emitted EvNotFound
      (trace (snd (start (Scenario.files_matching Scenario.one_bad_fs)
                     Scenario.one_bad_modules Scenario.pick_first Scenario.proj
                     (boot "/home/user")))) = 1.
Proof.
  exact (proj1 (found_xor_notFound_before_imports
                  (Scenario.files_matching Scenario.one_bad_fs)
                  Scenario.one_bad_modules Scenario.pick_first Scenario.proj
                  "/home/user")).
Defined.

(** C9, as stated, fails: the one template file is loaded, its template
    is selected, [generate] rejects, and [end] is never emitted although
    the loader returned a non-empty sequence. *)
Lemma end_iff_templates_loaded_fails :
  ~ end_iff_templates_loaded (Scenario.files_matching Scenario.broken_fs)
      Scenario.broken_modules Scenario.pick_first Scenario.proj "/home/user".
Proof.
  unfold end_iff_templates_loaded. intros [_ H].
  assert (L : exists templates,
             loaded (Scenario.files_matching Scenario.broken_fs)
               Scenario.broken_modules Scenario.proj "/home/user"
               = Fulfilled templates /\ templates <> []).
  { exists [Scenario.Broken]. split; [reflexivity | discriminate]. }
  apply H in L. vm_compute in L. lia.
Qed.

(** Files are matched, no template comes out of them: no [end]. *)
Lemma end_iff_loaded_and_generation_succeeded_witness :
  emitted EvFound
    (trace (snd (start (Scenario.files_matching ["empty.genry.ts"])
                   Scenario.mixed_modules Scenario.pick_first Scenario.proj
                   (boot "/home/user")))) = 1 /\
  prompted
    (trace (snd (start (Scenario.files_matching ["empty.genry.ts"])
                   Scenario.mixed_modules Scenario.pick_first Scenario.proj
                   (boot "/home/user")))) = [] /\
  emitted EvEnd
    (trace (snd (start (Scenario.files_matching ["empty.genry.ts"])
                   Scenario.mixed_modules Scenario.pick_first Scenario.proj
                   (boot "/home/user")))) = 0.
Proof.
  apply (end_iff_loaded_and_generation_succeeded
           (Scenario.files_matching ["empty.genry.ts"])
           Scenario.mixed_modules Scenario.pick_first Scenario.proj
           "/home/user").
  - discriminate.
  - reflexivity.
Defined.

(** A file system behind [glob] keeps the promise about last segments. *)
Lemma files_matching_last_segment fs :
  glob_matches_last_segment (Scenario.files_matching fs).
Proof.
  intros pattern opts toks file Hp Hin.
  unfold Scenario.files_matching in Hin. rewrite Hp in Hin.
  apply filter_In in Hin. tauto.
Qed.

(** Of the three files of the package only the two template files are
    imported. *)
Lemma imported_files_carry_the_marker_witness :
  glob_matches_last_segment (Scenario.files_matching Scenario.one_bad_fs) /\
  imports (trace (snd (start (Scenario.files_matching Scenario.one_bad_fs)
                         Scenario.one_bad_modules Scenario.pick_first
                         Scenario.proj (boot "/home/user"))))
    = ["/proj/a.genry.ts"; "/proj/b.genry.js"] /\
  template_basename (basename "/proj/b.genry.js").
Proof.
  split; [apply files_matching_last_segment|].
  split; [reflexivity|].
  apply (imported_files_carry_the_marker
           (Scenario.files_matching Scenario.one_bad_fs)
           Scenario.one_bad_modules Scenario.pick_first Scenario.proj
           "/home/user" "/proj/b.genry.js").
  - apply files_matching_last_segment.
  - cbn. auto.
Defined.

(** ** Paths *)

Lemma split_from_not_nil acc s : split_from acc s <> [].
Proof.
  revert acc. induction s as [|c s IH]; intros acc; cbn; [discriminate|].
  destruct (is_slash c); [discriminate | apply IH].
Qed.

(** A piece without a separator, followed by a separator. *)
Lemma split_from_app_slash seg acc x rest :
  split_from acc seg = [x] ->
  split_from acc (seg ++ "/" ++ rest)%string = x :: split_from "" rest.
Proof.
  revert acc. induction seg as [|c seg IH]; intros acc; cbn.
  - intros H. now injection H as <-.
  - destruct (is_slash c).
    + intros H. injection H as _ H. now apply split_from_not_nil in H.
    + apply IH.
Qed.

Lemma split_from_single acc s x :
  split_from acc s = [x] -> x = (acc ++ s)%string.
Proof.
  revert acc. induction s as [|c s IH]; intros acc; cbn.
  - intros H. injection H as <-. now rewrite append_empty_r.
  - destruct (is_slash c).
    + intros H. injection H as _ H. now apply split_from_not_nil in H.
    + intros H. apply IH in H. subst x.
      clear. induction acc as [|a acc IHa]; cbn; [reflexivity | now f_equal].
Qed.

Lemma split_from_no_trailing_slash acc s x :
  split_from acc s = [x] -> ends_with_slash s = false.
Proof.
  revert acc. induction s as [|c s IH]; intros acc; cbn; [reflexivity|].
  destruct (is_slash c) eqn:E.
  - intros H. injection H as _ H. now apply split_from_not_nil in H.
  - intros H. destruct s as [|d s]; [reflexivity | exact (IH _ H)].
Qed.

Lemma clean_segment_plain seg :
  clean_segment seg = true ->
  split_slash seg = [seg] /\ seg <> ""%string /\ seg <> "."%string
  /\ seg <> ".."%string.
Proof.
  unfold clean_segment. intros H. apply andb_true_iff in H.
  destruct H as [Hn Hs]. apply negb_true_iff in Hn.
  apply orb_false_iff in Hn. destruct Hn as [Hn H2].
  apply orb_false_iff in Hn. destruct Hn as [H0 H1].
  apply String.eqb_neq in H0, H1, H2.
  repeat split; try assumption.
  destruct (split_slash seg) as [|x [|y l]] eqn:E; try discriminate.
  apply split_from_single in E. now subst x.
Qed.

Lemma join_slash_not_empty segs :
  segs <> [] -> forallb clean_segment segs = true ->
  join_slash segs <> ""%string.
Proof.
  destruct segs as [|seg rest]; [contradiction|]. intros _ H.
  cbn in H. apply andb_true_iff in H. destruct H as [H _].
  apply clean_segment_plain in H. destruct H as (_ & Hne & _).
  destruct rest; cbn; [exact Hne|].
  destruct seg; [contradiction | discriminate].
Qed.

(** Splitting what was joined gives the segments back. *)
Lemma split_join_slash segs :
  segs <> [] -> forallb clean_segment segs = true ->
  split_slash (join_slash segs) = segs.
Proof.
  induction segs as [|seg rest IH]; [contradiction|]. intros _ H.
  cbn in H. apply andb_true_iff in H. destruct H as [Hs Hr].
  apply clean_segment_plain in Hs. destruct Hs as (Hs & _).
  destruct rest as [|s2 rest]; [exact Hs|].
  change (join_slash (seg :: s2 :: rest))
    with (seg ++ "/" ++ join_slash (s2 :: rest))%string.
  unfold split_slash. rewrite (split_from_app_slash seg "" seg _ Hs).
  f_equal. apply IH; [discriminate | exact Hr].
Qed.

Lemma normalize_segments_clean allowAboveRoot segs res :
  forallb clean_segment segs = true ->
  normalize_segments allowAboveRoot segs res = rev res ++ segs.
Proof.
  revert res. induction segs as [|seg rest IH]; intros res H; cbn.
  - now rewrite app_nil_r.
  - cbn in H. apply andb_true_iff in H. destruct H as [Hs Hr].
    apply clean_segment_plain in Hs. destruct Hs as (_ & H0 & H1 & H2).
    apply String.eqb_neq in H0, H1, H2. rewrite H0, H1, H2. cbn.
    rewrite (IH _ Hr). cbn. now rewrite <- app_assoc.
Qed.

Lemma ends_with_slash_app a s :
  s <> ""%string -> ends_with_slash (a ++ s) = ends_with_slash s.
Proof.
  intros Hs. induction a as [|c a IH]; [reflexivity|].
  cbn [append]. cbn [ends_with_slash].
  destruct (a ++ s)%string eqn:E; [|exact IH].
  destruct a; [now cbn in E | discriminate].
Qed.

Lemma join_slash_no_trailing_slash segs :
  segs <> [] -> forallb clean_segment segs = true ->
  ends_with_slash (join_slash segs) = false.
Proof.
  induction segs as [|seg rest IH]; [contradiction|]. intros _ H.
  pose proof H as H'. cbn in H. apply andb_true_iff in H.
  destruct H as [Hs Hr].
  apply clean_segment_plain in Hs. destruct Hs as (Hs & _).
  destruct rest as [|s2 rest].
  - exact (split_from_no_trailing_slash "" seg seg Hs).
  - change (join_slash (seg :: s2 :: rest))
      with (seg ++ String "/" (join_slash (s2 :: rest)))%string.
    rewrite ends_with_slash_app by discriminate.
    assert (N : join_slash (s2 :: rest) <> ""%string)
      by (apply join_slash_not_empty; [discriminate | exact Hr]).
    cbn [ends_with_slash].
    destruct (join_slash (s2 :: rest)) eqn:E; [contradiction|].
    apply IH; [discriminate | exact Hr].
Qed.

Lemma join_slash_app segs1 segs2 :
  segs1 <> [] -> segs2 <> [] ->
  join_slash (segs1 ++ segs2)
  = (join_slash segs1 ++ "/" ++ join_slash segs2)%string.
Proof.
  induction segs1 as [|seg rest IH]; [contradiction|]. intros _ H2.
  destruct rest as [|s2 rest].
  - cbn [app]. destruct segs2; [contradiction | reflexivity].
  - change (join_slash ((seg :: s2 :: rest) ++ segs2))
      with (seg ++ "/" ++ join_slash ((s2 :: rest) ++ segs2))%string.
    rewrite IH by (discriminate || assumption).
    change (join_slash (seg :: s2 :: rest))
      with (seg ++ "/" ++ join_slash (s2 :: rest))%string.
    generalize (join_slash (s2 :: rest)) (join_slash segs2). intros u v.
    clear. induction seg as [|c seg IHs]; cbn; [reflexivity | now f_equal].
Qed.

(** A normalised absolute path is its own normal form. *)
Lemma normalize_clean segs :
  segs <> [] -> forallb clean_segment segs = true ->
  normalize ("/" ++ join_slash segs) = ("/" ++ join_slash segs)%string.
Proof.
  intros Hne H. unfold normalize.
  change ("/" ++ join_slash segs)%string with (String "/" (join_slash segs)).
  cbn [String.eqb isAbsolute].
  change (is_slash "/") with true. cbn [negb].
  change (split_slash (String "/" (join_slash segs)))
    with ("" :: split_slash (join_slash segs))%string.
  rewrite (split_join_slash segs Hne H).
  cbn [normalize_segments String.eqb orb].
  rewrite (normalize_segments_clean false segs [] H). cbn [rev app].
  pose proof (join_slash_not_empty segs Hne H) as N.
  apply String.eqb_neq in N. rewrite N.
  assert (T : ends_with_slash (String "/" (join_slash segs)) = false).
  { cbn [ends_with_slash].
    destruct (join_slash segs) eqn:E; [now rewrite String.eqb_refl in N|].
    rewrite <- E. now apply join_slash_no_trailing_slash. }
  now rewrite T.
Qed.

(** For a normalised absolute directory other than the root directory
    and a relative file made of plain segments, [path.join] is the
    directory, a separator and the file. *)
Lemma join_plain root_segments file_segments :
  root_segments <> [] -> file_segments <> [] ->
  forallb clean_segment root_segments = true ->
  forallb clean_segment file_segments = true ->
  join ("/" ++ join_slash root_segments) (join_slash file_segments)
  = (("/" ++ join_slash root_segments) ++ "/"
     ++ join_slash file_segments)%string.
Proof.
  intros Hr Hf Cr Cf. unfold join.
  change (String.eqb ("/" ++ join_slash root_segments) "") with false.
  pose proof (join_slash_not_empty file_segments Hf Cf) as N.
  apply String.eqb_neq in N. rewrite N.
  cbv iota.
  assert (E : (("/" ++ join_slash root_segments) ++ "/"
               ++ join_slash file_segments)%string
              = ("/" ++ join_slash (root_segments ++ file_segments))%string).
  { rewrite join_slash_app by assumption. reflexivity. }
  rewrite E.
  change (String.eqb ("/" ++ join_slash (root_segments ++ file_segments)) "")
    with false. cbv iota.
  apply normalize_clean.
  - destruct root_segments; [contradiction | discriminate].
  - rewrite forallb_app. now rewrite Cr, Cf.
Qed.

(** X19: For a package root that is a normalised absolute path other
    than the root directory, and matched files that are relative paths
    made of plain segments (none empty, [.] or [..]), the normalisation
    of [path.join] changes nothing: the loader gives [import()] the
    root, a separator and the file, for each file in order. *)
Theorem imports_of_plain_files import_module this files w root_segments :
  packagePath this = ("/" ++ join_slash root_segments)%string ->
  root_segments <> [] ->
  forallb clean_segment root_segments = true ->
  Forall (fun f => exists segments,
                     segments <> [] /\
                     forallb clean_segment segments = true /\
                     f = join_slash segments) files ->
  imports (trace (snd (loadTemplates import_module this files w)))
  = imports (trace w)
    ++ map (fun f => (packagePath this ++ "/" ++ f)%string) files.
Proof.
  intros Hroot Hne Hclean Hfiles.
  assert (I : imports (trace (snd (loadTemplates import_module this files w)))
              = imports (trace w)
                ++ map (join (packagePath this)) files).
  { rewrite loadTemplates_eq. cbv zeta.
    change (Chdir (packagePath this) :: import_effects this files)
      with ([Chdir (packagePath this)] ++ import_effects this files).
    destruct (promise_all (import_promises import_module this files));
      cbn [snd trace]; rewrite !imports_app, imports_import_effects;
      cbn; now rewrite ?app_nil_r. }
  rewrite I. f_equal. apply map_ext_in. intros f Hf.
  rewrite Forall_forall in Hfiles.
  destruct (Hfiles f Hf) as (segments & Hs & Hc & ->).
  rewrite Hroot. now apply join_plain.
Qed.

Lemma list_ascii_of_string_app a b :
  list_ascii_of_string (a ++ b)
  = list_ascii_of_string a ++ list_ascii_of_string b.
Proof. induction a as [|c a IH]; cbn; [reflexivity | now f_equal]. Qed.

Lemma split_from_chars acc s x :
  split_from acc s = [x] ->
  forallb (fun c => negb (is_slash c)) (list_ascii_of_string s) = true.
Proof.
  revert acc. induction s as [|c s IH]; intros acc; cbn; [reflexivity|].
  destruct (is_slash c).
  - intros H. injection H as _ H. now apply split_from_not_nil in H.
  - intros H. exact (IH _ H).
Qed.

Lemma forallb_rev {A : Type} (f : A -> bool) l :
  forallb f l = true -> forallb f (rev l) = true.
Proof.
  rewrite !forallb_forall. intros H x Hx. apply H. now apply in_rev.
Qed.

Lemma dirname_cut_name l before :
  forallb (fun c => negb (is_slash c)) l = true ->
  dirname_cut false (l ++ "/"%char :: before) = Some before.
Proof.
  induction l as [|c l IH]; cbn; [reflexivity|].
  intros H. apply andb_true_iff in H. destruct H as [Hc Hl].
  apply negb_true_iff in Hc. rewrite Hc. now apply IH.
Qed.

Lemma dirname_cut_no_slash skipping l :
  forallb (fun c => negb (is_slash c)) l = true ->
  l <> [] -> dirname_cut skipping l = None.
Proof.
  intros H Hne. destruct l as [|c l]; [contradiction|]. clear Hne.
  cbn in *. apply andb_true_iff in H. destruct H as [Hc Hl].
  apply negb_true_iff in Hc. rewrite Hc.
  induction l as [|d l IH]; cbn; [reflexivity|].
  cbn in Hl. apply andb_true_iff in Hl. destruct Hl as [Hd Hl].
  apply negb_true_iff in Hd. rewrite Hd. now apply IH.
Qed.

(** For a file name without a separator, [path.dirname] of a directory
    of two characters or more, a separator and the name is that
    directory, and [path.dirname] of a file in the root directory is the
    root directory. *)
Lemma dirname_of_manifest d name :
  clean_segment name = true ->
  (2 <= String.length d -> dirname (d ++ "/" ++ name) = d) /\
  dirname ("/" ++ name) = "/"%string.
Proof.
  intros Hname. apply clean_segment_plain in Hname.
  destruct Hname as (Hs & Hne & _).
  pose proof (split_from_chars "" name name Hs) as Hc.
  apply forallb_rev in Hc.
  assert (Hl : rev (list_ascii_of_string name) <> []).
  { destruct name as [|c name]; [contradiction|]. cbn.
    intros E. now apply app_eq_nil in E. }
  split.
  - intros Hd. destruct d as [|c [|c2 d]]; cbn in Hd; try lia.
    cbn [append]. unfold dirname.
    change (String c2 (d ++ String "/" name))
      with (String c2 d ++ String "/" name)%string.
    rewrite list_ascii_of_string_app.
    change (list_ascii_of_string (String "/" name))
      with ("/"%char :: list_ascii_of_string name).
    rewrite rev_app_distr. cbn [rev]. rewrite <- app_assoc. cbn [app].
    destruct (rev (list_ascii_of_string name)) as [|x l] eqn:E;
      [contradiction|].
    cbn [app dirname_cut]. cbn in Hc. apply andb_true_iff in Hc.
    destruct Hc as [Hx Hc]. apply negb_true_iff in Hx. rewrite Hx.
    rewrite (dirname_cut_name l _ Hc).
    destruct (rev (list_ascii_of_string (String c2 d))) as [|y r] eqn:R.
    + cbn in R. now apply app_eq_nil in R.
    + rewrite <- R, rev_involutive, string_of_list_ascii_of_string.
      reflexivity.
  - change ("/" ++ name)%string with (String "/" name). unfold dirname.
    now rewrite (dirname_cut_no_slash true _ Hc Hl).
Qed.

(** X20: The package root is the directory that holds the manifest:
    when pkg-up finds the manifest [name] in a directory of two
    characters or more and the search of cosmiconfig is fulfilled,
    [getInitConfig] is fulfilled with that directory as the package
    root. *)
Theorem packagePath_holds_manifest pkgUp cosmiconfig_search argv w d name found :
  clean_segment name = true ->
  2 <= String.length d ->
  pkgUp (match argv_path argv with Some given => given | None => cwd w end)
    = Fulfilled (Some (d ++ "/" ++ name)%string) ->
  cosmiconfig_search MODULE_NAME
    (match argv_path argv with Some given => given | None => cwd w end)
    = Fulfilled found ->
  exists init,
    fst (getInitConfig pkgUp cosmiconfig_search argv w) = Fulfilled init /\
    init_packagePath init = d.
Proof.
  intros Hname Hd Hp Hc. rewrite getInitConfig_eq. cbv zeta. cbn [fst].
  rewrite Hp, Hc. cbn. eexists. split; [reflexivity|]. cbn.
  now apply dirname_of_manifest.
Qed.

(** ** The options given to ts-node *)

Lemma obj_get_set o k v k' :
  obj_get (obj_set o k v) k'
  = if String.eqb k' k then Some v else obj_get o k'.
Proof.
  induction o as [|[k0 v0] o IH]; cbn; [reflexivity|].
  destruct (String.eqb k k0) eqn:E; cbn.
  - apply String.eqb_eq in E. subst k0. now destruct (String.eqb k' k).
  - rewrite IH. destruct (String.eqb k' k0) eqn:E0; [|reflexivity].
    apply String.eqb_eq in E0. subst k0.
    rewrite String.eqb_sym in E. now rewrite E.
Qed.

Lemma obj_get_absent o k : ~ In k (map fst o) -> obj_get o k = None.
Proof.
  induction o as [|[k0 v0] o IH]; cbn; [reflexivity|]. intros H.
  destruct (String.eqb k k0) eqn:E.
  - apply String.eqb_eq in E. subst k0. contradiction H. now left.
  - apply IH. intros Hin. apply H. now right.
Qed.

(** A later property of the source wins over the target's. *)
Lemma obj_get_spread source : forall target k,
  NoDup (map fst source) ->
  obj_get (spread target source) k
  = match obj_get source k with
    | Some v => Some v
    | None => obj_get target k
    end.
Proof.
  unfold spread.
  induction source as [|[k0 v0] source IH]; intros target k Hnd; cbn;
    [reflexivity|].
  cbn in Hnd. inversion Hnd as [|? ? Hnotin Hnd']; subst.
  rewrite (IH _ _ Hnd'), obj_get_set.
  destruct (String.eqb k k0) eqn:E; [|reflexivity].
  apply String.eqb_eq in E. subst k0.
  now rewrite (obj_get_absent source k Hnotin).
Qed.

Lemma keys_obj_set o k v k' :
  In k' (map fst (obj_set o k v)) <-> k' = k \/ In k' (map fst o).
Proof.
  induction o as [|[k0 v0] o IH]; cbn.
  - intuition.
  - destruct (String.eqb k k0) eqn:E; cbn.
    + apply String.eqb_eq in E. subst k0. intuition.
    + rewrite IH. intuition.
Qed.

Lemma NoDup_obj_set o k v :
  NoDup (map fst o) -> NoDup (map fst (obj_set o k v)).
Proof.
  induction o as [|[k0 v0] o IH]; cbn; intros H.
  - constructor; [intros [] | constructor].
  - inversion H as [|? ? Hnotin H']; subst.
    destruct (String.eqb k k0) eqn:E; cbn.
    + now constructor.
    + constructor; [|now apply IH].
      rewrite keys_obj_set. intros [->|Hin]; [|contradiction].
      now rewrite String.eqb_refl in E.
Qed.

Lemma NoDup_spread source : forall target,
  NoDup (map fst target) -> NoDup (map fst (spread target source)).
Proof.
  unfold spread. induction source as [|[k0 v0] source IH]; intros target H;
    cbn; [exact H|].
  apply IH. now apply NoDup_obj_set.
Qed.

(** X21: The compiler options given to ts-node: for every option the
    user's value when the user's [compilerOptions] have one, the
    constructor's default otherwise; no option appears twice; and the
    other ts-node options of the user are passed as they are. *)
Theorem register_options_user_wins ro :
  NoDup (map fst (or_empty (match ro with
                            | Some r => compilerOptions r
                            | None => None
                            end))) ->
  exists merged,
    compilerOptions (register_options ro) = Some merged /\
    (forall k,
        obj_get merged k
        = match obj_get (or_empty (match ro with
                                   | Some r => compilerOptions r
                                   | None => None
                                   end)) k with
          | Some v => Some v
          | None => obj_get default_compilerOptions k
          end) /\
    NoDup (map fst merged) /\
    otherOptions (register_options ro)
      = match ro with Some r => otherOptions r | None => [] end.
Proof.
  intros Hnd. eexists. split; [reflexivity|]. split; [|split].
  - intros k. now apply obj_get_spread.
  - apply NoDup_spread. cbn.
    repeat constructor; cbn; intuition discriminate.
  - reflexivity.
Qed.

(** X22: Without [registerOptions], or without [compilerOptions] in
    them, ts-node gets exactly the four defaults: [allowJs],
    [module: CommonJS], [esModuleInterop] and
    [allowSyntheticDefaultImports].  With compiler options of the
    user's, each of the four is still set, to the user's value or to
    the default. *)
Theorem register_options_defaults ro :
  ((ro = None \/ exists r, ro = Some r /\ compilerOptions r = None) ->
   compilerOptions (register_options ro) = Some default_compilerOptions) /\
  (NoDup (map fst (or_empty (match ro with
                             | Some r => compilerOptions r
                             | None => None
                             end))) ->
   forall k, In k ["allowJs"; "module"; "esModuleInterop";
                   "allowSyntheticDefaultImports"]%string ->
   exists merged v,
     compilerOptions (register_options ro) = Some merged /\
     obj_get merged k = Some v).
Proof.
  split.
  - intros [-> | (r & -> & Hr)]; cbn; [reflexivity|]. now rewrite Hr.
  - intros Hnd k Hk. eexists. 
    destruct (obj_get (or_empty (match ro with
                                 | Some r => compilerOptions r
                                 | None => None
                                 end)) k) as [v|] eqn:E.
    + exists v. split; [reflexivity|].
      cbn [register_options compilerOptions].
      now rewrite obj_get_spread, E.
    + cbn in Hk.
      destruct Hk as [<-|[<-|[<-|[<-|[]]]]]; eexists;
        (split; [reflexivity|]);
        cbn [register_options compilerOptions];
        rewrite obj_get_spread, E by assumption; reflexivity.
Qed.

(** ** The properties above, on the example packages *)

Lemma loadTemplates_fulfilled_restores_witness :
  (exists templates,
      fst (loadTemplates Scenario.mixed_modules Scenario.proj
             Scenario.mixed_fs (boot "/home/user")) = Fulfilled templates /\
      map Some templates
      = concat (map as_array
                  (filter truthy
                     [EArray [Scenario.A; Scenario.B];
                      ETemplate Scenario.Broken; EUndefined; ENull]))) /\
  cwd (snd (loadTemplates Scenario.mixed_modules Scenario.proj
              Scenario.mixed_fs (boot "/home/user"))) = "/home/user"%string.
Proof.
  pose proof (loadTemplates_fulfilled_restores Scenario.mixed_modules
                Scenario.proj Scenario.mixed_fs
                [ {| default := EArray [Scenario.A; Scenario.B] |};
                  {| default := ETemplate Scenario.Broken |};
                  {| default := EUndefined |};
                  {| default := ENull |} ]
                (boot "/home/user")) as H.
  destruct H as (Hr & Hc & _); [reflexivity|].
  split; [exact Hr | exact Hc].
Defined.

Lemma loadTemplates_rejected_by_import_witness :
  cwd (snd (loadTemplates Scenario.one_bad_modules Scenario.proj
              ["a.genry.ts"; "b.genry.js"]%string (boot "/home/user")))
    = "/proj"%string /\
  imports (trace (snd (loadTemplates Scenario.one_bad_modules Scenario.proj
                         ["a.genry.ts"; "b.genry.js"]%string
                         (boot "/home/user"))))
    = ["/proj/a.genry.ts"; "/proj/b.genry.js"]%string.
Proof.
  pose proof (loadTemplates_rejected_by_import Scenario.one_bad_modules
                Scenario.proj ["a.genry.ts"; "b.genry.js"]%string
                (boot "/home/user") "b.genry.js"%string
                "Cannot find module /proj/b.genry.js"%string) as H.
  destruct H as (_ & Hc & Hi & _).
  - cbn. auto.
  - reflexivity.
  - split; [exact Hc | exact Hi].
Defined.

Lemma picker_shown_what_was_loaded_witness :
  prompted (trace (snd (start (Scenario.files_matching Scenario.mixed_fs)
                         Scenario.mixed_modules Scenario.cancel Scenario.proj
                         (boot "/home/user"))))
  = [[Scenario.A; Scenario.B; Scenario.Broken]].
Proof.
  apply (picker_shown_what_was_loaded
           (Scenario.files_matching Scenario.mixed_fs)
           Scenario.mixed_modules Scenario.cancel Scenario.proj "/home/user").
  - reflexivity.
  - discriminate.
Defined.

Lemma generate_receives_context_witness :
  exists templates,
    loaded (Scenario.files_matching Scenario.mixed_fs) Scenario.mixed_modules
      Scenario.proj "/home/user" = Fulfilled templates /\
    templates <> [] /\
    prompted (trace (snd (start (Scenario.files_matching Scenario.mixed_fs)
                           Scenario.mixed_modules Scenario.pick_first
                           Scenario.proj (boot "/home/user"))))
      = [templates] /\
    Scenario.pick_first templates = Some Scenario.A.
Proof.
  apply (generate_receives_context
           (Scenario.files_matching Scenario.mixed_fs)
           Scenario.mixed_modules Scenario.pick_first Scenario.proj
           "/home/user" Scenario.A
           {| ctx_path := "/home/user"; ctx_packagePath := "/proj";
              ctx_ipcServer := None; ctx_terminalId := None |}
           Scenario.noConfig).
  vm_compute. auto.
Defined.

Lemma empty_export_changes_nothing_witness :
  concat_exports [ETemplate Scenario.Broken; ENull]
    = concat_exports [ETemplate Scenario.Broken] /\
  fst (loadTemplates Scenario.mixed_modules Scenario.proj
         (["src/single.genry.js"] ++ "null.genry.ts" :: [])
         (boot "/home/user"))
  = fst (loadTemplates Scenario.mixed_modules Scenario.proj
           (["src/single.genry.js"] ++ []) (boot "/home/user")).
Proof.
  apply (empty_export_changes_nothing Scenario.mixed_modules Scenario.proj
           ["src/single.genry.js"] "null.genry.ts" []
           [ {| default := ETemplate Scenario.Broken |} ]
           {| default := ENull |} []);
    reflexivity.
Defined.

Lemma end_is_last_witness :
  exists before,
    trace (snd (start (Scenario.files_matching Scenario.mixed_fs)
                  Scenario.mixed_modules Scenario.pick_first Scenario.proj
                  (boot "/home/user"))) = before ++ [Emit EvEnd] /\
    emitted EvEnd before = 0.
Proof.
  apply (end_is_last (Scenario.files_matching Scenario.mixed_fs)
           Scenario.mixed_modules Scenario.pick_first Scenario.proj
           "/home/user").
  vm_compute. lia.
Defined.

Lemma failed_import_ends_run_witness :
  prompted (trace (snd (start (Scenario.files_matching Scenario.one_bad_fs)
                         Scenario.one_bad_modules Scenario.pick_first
                         Scenario.proj (boot "/home/user")))) = [] /\
  process_exit_status
    (fst (start (Scenario.files_matching Scenario.one_bad_fs)
            Scenario.one_bad_modules Scenario.pick_first Scenario.proj
            (boot "/home/user"))) = 1%Z.
Proof.
  pose proof (failed_import_ends_run
                (Scenario.files_matching Scenario.one_bad_fs)
                Scenario.one_bad_modules Scenario.pick_first Scenario.proj
                "/home/user" "b.genry.js"%string
                "Cannot find module /proj/b.genry.js"%string) as H.
  destruct H as (_ & _ & Hp & _ & _ & Hx).
  - cbn. auto.
  - reflexivity.
  - split; [exact Hp | exact Hx].
Defined.

Lemma getInitConfig_resolves_path_witness :
  isAbsolute "/home/user/src" = true /\
  resolve_path "/home/user" "/home/user/src" = "/home/user/src"%string.
Proof.
  pose proof (getInitConfig_resolves_path Scenario.pkg_in_proj
                Scenario.some_rc Scenario.argv_src (boot "/home/user")
                {| args_path := "/home/user/src";
                   args_ipcServer := Some "ipc-1"%string;
                   args_terminalId := Some "7"%string;
                   init_packagePath := "/proj";
                   init_config := Scenario.rc_config |}) as H.
  destruct H as (Ha & Hr & _); [reflexivity | reflexivity |].
  split; [exact Ha | exact Hr].
Defined.

Lemma getInitConfig_fulfilled_witness :
  fst (getInitConfig Scenario.pkg_in_proj Scenario.no_rc Scenario.argv_none
         (boot "/home/user"))
  = Fulfilled {| args_path := "/home/user";
                 args_ipcServer := None;
                 args_terminalId := None;
                 init_packagePath := "/proj";
                 init_config := empty_config |}.
Proof.
  apply (proj2 (getInitConfig_fulfilled Scenario.pkg_in_proj Scenario.no_rc
                  Scenario.argv_none (boot "/home/user"))
           "/proj/package.json"%string None); reflexivity.
Defined.

Lemma no_manifest_no_run_witness :
  process_exit_status
    (fst (cli (Scenario.files_matching Scenario.mixed_fs)
            Scenario.mixed_modules Scenario.pick_first Scenario.no_pkg
            Scenario.no_rc Scenario.argv_none (boot "/home/user"))) = 1%Z.
Proof.
  apply (no_manifest_no_run (Scenario.files_matching Scenario.mixed_fs)
           Scenario.mixed_modules Scenario.pick_first Scenario.no_pkg
           Scenario.no_rc Scenario.argv_none "/home/user" eq_refl).
Defined.

Lemma no_config_default_search_witness :
  glob_calls
    (trace (snd (cli (Scenario.files_matching Scenario.mixed_fs)
                   Scenario.mixed_modules Scenario.pick_first
                   Scenario.pkg_in_proj Scenario.no_rc Scenario.argv_none
                   (boot "/home/user"))))
  = [("**/*.genry.?(ts|js)"%string,
      {| dot := true; nodir := true; glob_cwd := dirname "/proj/package.json";
         ignore := None |})].
Proof.
  apply (no_config_default_search (Scenario.files_matching Scenario.mixed_fs)
           Scenario.mixed_modules Scenario.pick_first Scenario.pkg_in_proj
           Scenario.no_rc Scenario.argv_none "/home/user"
           "/proj/package.json"%string None); reflexivity.
Defined.

Lemma cli_context_witness :
  isAbsolute "/home/user/src" = true /\
  (exists manifest,
      Scenario.pkg_in_proj "src" = Fulfilled (Some manifest) /\
      "/proj"%string = dirname manifest).
Proof.
  pose proof (cli_context (Scenario.files_matching Scenario.mixed_fs)
                Scenario.mixed_modules Scenario.pick_first
                Scenario.pkg_in_proj Scenario.no_rc Scenario.argv_src
                "/home/user" Scenario.A
                {| ctx_path := "/home/user/src"; ctx_packagePath := "/proj";
                   ctx_ipcServer := Some "ipc-1"%string;
                   ctx_terminalId := Some "7"%string |}
                empty_config) as H.
  destruct H as (Ha & _ & Hm & _).
  - reflexivity.
  - vm_compute. auto.
  - split; [exact Ha | exact Hm].
Defined.

Lemma imports_of_plain_files_witness :
  imports (trace (snd (loadTemplates Scenario.mixed_modules Scenario.proj
                         ["src/pair.genry.ts"; "empty.genry.ts"]
                         (boot "/home/user"))))
  = ["/proj/src/pair.genry.ts"; "/proj/empty.genry.ts"].
Proof.
  apply (imports_of_plain_files Scenario.mixed_modules Scenario.proj
           ["src/pair.genry.ts"; "empty.genry.ts"] (boot "/home/user")
           ["proj"]).
  - reflexivity.
  - discriminate.
  - reflexivity.
  - repeat constructor.
    + exists ["src"; "pair.genry.ts"].
      split; [discriminate | split; reflexivity].
    + exists ["empty.genry.ts"].
      split; [discriminate | split; reflexivity].
Defined.

Lemma packagePath_holds_manifest_witness :
  exists init,
    fst (getInitConfig Scenario.pkg_in_proj Scenario.some_rc Scenario.argv_src
           (boot "/home/user")) = Fulfilled init /\
    init_packagePath init = "/proj".
Proof.
  apply (packagePath_holds_manifest Scenario.pkg_in_proj Scenario.some_rc
           Scenario.argv_src (boot "/home/user") "/proj" "package.json"
           (Some {| cc_config := Some Scenario.rc_config;
                    cc_filepath := "/proj/.genryrc" |})).
  - reflexivity.
  - cbn. lia.
  - reflexivity.
  - reflexivity.
Defined.

Lemma register_options_user_wins_witness :
  exists merged,
    compilerOptions (register_options (Some Scenario.user_registerOptions))
      = Some merged /\
    obj_get merged "module" = Some (JString "ESNext") /\
    obj_get merged "allowJs" = Some (JBool true) /\
    obj_get merged "strict" = Some (JBool true).
Proof.
  destruct (register_options_user_wins (Some Scenario.user_registerOptions))
    as (merged & Hm & Hget & _).
  - cbn. repeat constructor; cbn; intuition discriminate.
  - exists merged. split; [exact Hm|].
    rewrite !Hget. cbn. auto.
Defined.

Lemma register_options_defaults_witness :
  compilerOptions (register_options None) = Some default_compilerOptions.
Proof.
  apply (proj1 (register_options_defaults None)). now left.
Defined.
